(** * fantasy_stats: a shallow embedding of the scraper and its scoring

    The development follows the two source files of the repository,
    [fantasy_data_scrape.py] and [scrape_parallel.py].

    Modelling conventions.
    - Python strings are [string]s over [ascii]; [isdigit], [lower] and
      [strip] are the ASCII ones.
    - A Python [dict] is an association list kept in insertion order:
      assigning to a key that is already present overwrites the value in
      place, assigning to a new key appends at the end.
    - Python numbers are exact: an [int] is a [Z]; a [float] is idealised as
      a rational [Q] (finite, no rounding error, no infinities, no NaN).
      [round(x, 2)] rounds the exact value to the nearest hundredth, ties to
      even.
    - Exceptions are explicit ([result]).  The site, the module global
      [seen_players], the schema log and the records dumped under [data/]
      are fields of an explicit [world] threaded through the stateful
      functions ([M]); what is printed is left out.
    - The workers of the process pool each own a copy of [seen_players] and
      share the files; the units are taken in list order, each by the worker
      a schedule names. *)

From Stdlib Require Import List String Ascii ZArith QArith Qabs Qround Bool Lia Lqa Arith.
From Stdlib Require Import DecimalString.
From Stdlib Require Import Sorted Permutation.
Import ListNotations.

Local Open Scope string_scope.
Local Open Scope list_scope.

(* ================================================================= *)
(** ** Python dictionaries *)

(** Keys of a dictionary are compared with a boolean equality. *)
Class KeyEq (K : Type) := keqb : K -> K -> bool.

#[export] Instance string_KeyEq : KeyEq string := String.eqb.

#[export] Instance Z_KeyEq : KeyEq Z := Z.eqb.

#[export] Instance pair_KeyEq {A B} `{KeyEq A} `{KeyEq B} : KeyEq (A * B) :=
  fun x y => keqb (fst x) (fst y) && keqb (snd x) (snd y).

(** The boolean equality decides Leibniz equality. *)
Class KeyEqLaws (K : Type) `{KeyEq K} :=
  keqb_eq : forall a b : K, keqb a b = true <-> a = b.

Definition dict (K V : Type) := list (K * V).

Section Dict.
Context {K V : Type} `{KeyEq K}.

(** [d.get(k)] *)
Fixpoint dict_get (d : dict K V) (k : K) : option V :=
  match d with
  | [] => None
  | (k', v) :: d' => if keqb k' k then Some v else dict_get d' k
  end.

(** [k in d] *)
Definition dict_mem (d : dict K V) (k : K) : bool :=
  match dict_get d k with Some _ => true | None => false end.

(** [d[k] = v] *)
Fixpoint dict_set (d : dict K V) (k : K) (v : V) : dict K V :=
  match d with
  | [] => [(k, v)]
  | (k', v') :: d' =>
      if keqb k' k then (k', v) :: d' else (k', v') :: dict_set d' k v
  end.

(** [d.update(m)] *)
Definition dict_update (d m : dict K V) : dict K V :=
  fold_left (fun acc kv => dict_set acc (fst kv) (snd kv)) m d.

Definition dict_keys (d : dict K V) : list K := map fst d.
Definition dict_values (d : dict K V) : list V := map snd d.
End Dict.

(* ================================================================= *)
(** ** Python values held in a stats dictionary

    A cell of a game log becomes a [float], an [int] or stays a [str]
    (lines 268-271 of [fantasy_data_scrape.py]); missing canonical names are
    filled with the integer [0] (line 277). *)

Inductive pyval :=
| PInt (z : Z)
| PFloat (q : Q)
| PStr (s : string).

(** [isinstance(val, (int, float))] *)
Definition is_number (v : pyval) : bool :=
  match v with PInt _ | PFloat _ => true | PStr _ => false end.

(** The exact numeric value of a number. *)
Definition num (v : pyval) : Q :=
  match v with PInt z => inject_Z z | PFloat q => q | PStr _ => 0 end.

(** [round(x)] to the nearest integer, ties to even. *)
Definition round_half_even (x : Q) : Z :=
  let n := Qnum x in
  let d := Zpos (Qden x) in
  let f := (n / d)%Z in
  let r := (n mod d)%Z in
  match (2 * r ?= d)%Z with
  | Lt => f
  | Gt => (f + 1)%Z
  | Eq => if Z.even f then f else (f + 1)%Z
  end.

(** [round(x, 2)] *)
Definition round2 (x : Q) : Q := inject_Z (round_half_even (x * 100)) / 100.

(* ================================================================= *)
(** ** ScoringEngine: [calc_fantasy] *)

Module Scoring.

Record fantasy := mk_fantasy { standard : Q; half_ppr : Q; ppr : Q }.

(** The local helper [g] of [calc_fantasy]:
    [val = stats.get(key, 0); return val if isinstance(val, (int, float)) else 0] *)
Definition g (stats : dict string pyval) (key : string) : Q :=
  let val := match dict_get stats key with Some v => v | None => PInt 0 end in
  if is_number val then num val else 0.

Definition calc_fantasy (stats : dict string pyval) : fantasy :=
  let pass_yds := g stats "Pass Yds" in
  let pass_td := g stats "Pass TD" in
  let interceptions := g stats "Int" in
  let rush_yds := g stats "Rush Yds" in
  let rush_td := g stats "Rush TD" in
  let rec := g stats "Rec" in
  let rec_yds := g stats "Rec Yds" in
  let rec_td := g stats "Rec TD" in
  let fumbles_lost := g stats "Fumbles Lost" in
  let two_pt := g stats "2PM" in
  let std :=
    (pass_yds / 25) + (pass_td * 4) - (interceptions * 2)
    + (rush_yds / 10) + (rush_td * 6)
    + (rec_yds / 10) + (rec_td * 6)
    + (two_pt * 2) - (fumbles_lost * 2) in
  let half := std + rec * (1 # 2) in
  let ppr := std + rec * 1 in
  mk_fantasy (round2 std) (round2 half) (round2 ppr).

(** The scenario of the specification, with the keys the code reads. *)
Definition scenario_stats : dict string pyval :=
  [("Pass Yds", PInt 300); ("Pass TD", PInt 3); ("Int", PInt 1);
   ("Rush Yds", PInt 50); ("Rush TD", PInt 0); ("Rec", PInt 5);
   ("Rec Yds", PInt 60); ("Rec TD", PInt 1); ("Fumbles Lost", PInt 0);
   ("2PM", PInt 0)].



(** The keys [calc_fantasy] reads: those whose stat adds to the score and
    those whose stat is subtracted. *)
Definition gain_keys : list string :=
  ["Pass Yds"; "Pass TD"; "Rush Yds"; "Rush TD"; "Rec"; "Rec Yds"; "Rec TD";
   "2PM"].
Definition loss_keys : list string := ["Int"; "Fumbles Lost"].
Definition scoring_keys : list string := gain_keys ++ loss_keys.

End Scoring.

(* ================================================================= *)
(** ** Python string operations *)

Definition is_digit (c : ascii) : bool :=
  (48 <=? nat_of_ascii c)%nat && (nat_of_ascii c <=? 57)%nat.

(** [c.isspace()] on ASCII: space, tab to carriage return, and the four
    separators 28 to 31. *)
Definition is_space (c : ascii) : bool :=
  let n := nat_of_ascii c in
  (n =? 32)%nat || ((9 <=? n)%nat && (n <=? 13)%nat)
  || ((28 <=? n)%nat && (n <=? 31)%nat).

Definition lower_ascii (c : ascii) : ascii :=
  let n := nat_of_ascii c in
  if (65 <=? n)%nat && (n <=? 90)%nat then ascii_of_nat (n + 32) else c.

(** [s.lower()] *)
Fixpoint lower (s : string) : string :=
  match s with
  | EmptyString => EmptyString
  | String c s' => String (lower_ascii c) (lower s')
  end.

Fixpoint string_forall (p : ascii -> bool) (s : string) : bool :=
  match s with
  | EmptyString => true
  | String c s' => p c && string_forall p s'
  end.

(** [s.isdigit()]: at least one character and all of them digits. *)
Definition isdigit (s : string) : bool :=
  match s with
  | EmptyString => false
  | _ => string_forall is_digit s
  end.

Fixpoint lstrip (p : ascii -> bool) (s : string) : string :=
  match s with
  | EmptyString => EmptyString
  | String c s' => if p c then lstrip p s' else s
  end.

Fixpoint rstrip (p : ascii -> bool) (s : string) : string :=
  match s with
  | EmptyString => EmptyString
  | String c s' =>
      match rstrip p s' with
      | EmptyString => if p c then EmptyString else String c EmptyString
      | r => String c r
      end
  end.

(** [s.strip(chars)], the set [chars] given as a predicate. *)
Definition strip_chars (p : ascii -> bool) (s : string) : string :=
  rstrip p (lstrip p s).

(** [s.strip()] *)
Definition strip : string -> string := strip_chars is_space.

(** [s.strip("_")] *)
Definition strip_underscore : string -> string :=
  strip_chars (Ascii.eqb "_"%char).

Definition first_char (s : string) : option ascii :=
  match s with
  | EmptyString => None
  | String c _ => Some c
  end.

Fixpoint last_char (s : string) : option ascii :=
  match s with
  | EmptyString => None
  | String c EmptyString => Some c
  | String _ s' => last_char s'
  end.

(** [sub in s] *)
Fixpoint contains (sub s : string) : bool :=
  prefix sub s ||
  match s with
  | EmptyString => false
  | String _ s' => contains sub s'
  end.

(** [s[:n]] *)
Definition take_prefix (n : nat) (s : string) : string := substring 0 n s.

(** [str(n)] for an [int]. *)
Definition str_of_int (z : Z) : string := NilZero.string_of_int (Z.to_int z).

(** The digits of an integer literal accepted by [int()]: decimal digits,
    single underscores allowed between two digits. *)
Fixpoint int_digits (acc : Z) (after_digit : bool) (s : string) : option Z :=
  match s with
  | EmptyString => if after_digit then Some acc else None
  | String c s' =>
      if is_digit c then
        int_digits (acc * 10 + Z.of_nat (nat_of_ascii c - 48)) true s'
      else if Ascii.eqb c "_"%char then
        if after_digit then int_digits acc false s' else None
      else None
  end.

(** [int(s)]: surrounding white space, an optional sign, then the digits;
    [None] stands for [ValueError]. *)
Definition py_int (s : string) : option Z :=
  match strip s with
  | String "+"%char d => int_digits 0 false d
  | String "-"%char d => option_map Z.opp (int_digits 0 false d)
  | d => int_digits 0 false d
  end.

(* ================================================================= *)
(** ** Exceptions *)

Inductive exn :=
| HTTPError        (* [res.raise_for_status()] or a failed request *)
| AttributeError   (* attribute access on [None] *)
| IndexError
| KeyError
| ValueError
| UnboundLocalError.

Inductive result (A : Type) :=
| Ok (a : A)
| Raise (e : exn).
Arguments Ok {A} a.
Arguments Raise {A} e.

(* ================================================================= *)
(** ** The parsed documents

    Only what the scraper reads of a page is kept.  A text field holds the
    text of the element with surrounding white space removed, as
    [get_text(strip=True)] and [.text.strip()] return it. *)

(** A header cell [<th>] with the attributes the code reads. *)
Record th_cell := mk_th {
  th_text : string;
  th_colspan : option string;
  th_data_tip : option string;
  th_data_stat : option string
}.

(** A body row [<tr>]: its [class] attribute and the texts of its cells. *)
Record body_row := mk_row {
  row_class : option (list string);
  row_cells : list string
}.

(** The table with [id="stats"] of a game-log page. *)
Record stats_table := mk_stats {
  thead : option (list (list th_cell));
  tbody : option (list body_row)
}.

Record anchor := mk_a { a_text : string; a_href : option string }.

(** The [<td data-stat="player">] cell of the fantasy ranking table. *)
Record name_cell := mk_name_cell {
  nc_a : option anchor;
  nc_data_append_csv : option string
}.

Record fantasy_row := mk_frow {
  frow_class : option (list string);
  frow_pos : option string;       (* text of [td data-stat="fantasy_pos"] *)
  frow_player : option name_cell
}.

(** What [div#inner_nav], its "Game Logs" span and the following [<ul>]
    give on a player page. *)
Inductive game_logs_nav :=
| NoNav
| NoGameLogHeader
| NoGameLogList
| GameLogList (links : list anchor).

Record soup := mk_soup {
  stats_of : option stats_table;                   (* [table#stats] *)
  fantasy_of : option (option (list fantasy_row)); (* [table#fantasy], [tbody] *)
  nav_of : game_logs_nav
}.

(* ================================================================= *)
(** ** The world: the site, the module globals and the files *)

Definition header_key := (string * string)%type.

(** A registry entry [{"unique": ..., "tip": ...}]. *)
Record meta_info := mk_info { unique : string; tip : string }.

(** The registry ([metadata_map]): [(category, column)] to its entry. *)
Definition metadata := dict header_key meta_info.

(** One game, as assembled at the end of the row loop of [scrape_gamelog]. *)
Record game := mk_game {
  week : Z;
  date : pyval;
  team : pyval;
  opponent : pyval;
  home : bool;
  stats : dict string pyval;
  fantasy : Scoring.fantasy
}.

(** [{"games": games}] *)
Record year_data := mk_year { games : list game }.

(** [{"name": ..., "id": ..., "years": {...}}] *)
Record player_data := mk_player {
  p_name : string;
  p_id : string;
  years : dict string year_data
}.

Record world := mk_world {
  web : string -> option soup;            (* the page behind a URL, if it can be fetched *)
  seen_players : list string;             (* the module global [seen_players] *)
  text_files : dict string (list string); (* path to the strings written, in order *)
  json_dumps : list (string * player_data) (* the [json.dump] calls, in order: path and record *)
}.

(** Computations that read and change the world and may raise. *)
Definition M (A : Type) := world -> result A * world.

Definition ret {A} (a : A) : M A := fun w => (Ok a, w).
Definition raise {A} (e : exn) : M A := fun w => (Raise e, w).
Definition bind {A B} (m : M A) (k : A -> M B) : M B :=
  fun w => match m w with
           | (Ok a, w') => k a w'
           | (Raise e, w') => (Raise e, w')
           end.
Definition lift {A} (r : result A) : M A := fun w => (r, w).

Notation "x <- m ;; k" := (bind m (fun x => k))
  (at level 61, m at next level, right associativity).
Notation "m ;;; k" := (bind m (fun _ => k))
  (at level 61, right associativity).

Definition BASE_URL : string := "https://www.pro-football-reference.com".
Definition START_YEAR : Z := 2010.
Definition END_YEAR : Z := 2024.
Definition DATA_DIR : string := "data".
Definition METADATA_FILE : string := "data/table_metadata.txt".

Definition newline : string := String (ascii_of_nat 10) EmptyString.

(** [fetch_soup(url)] *)
Definition fetch_soup (url : string) : M soup :=
  fun w => match web w url with
           | Some s => (Ok s, w)
           | None => (Raise HTTPError, w)
           end.

(** [open(path, "w")] followed by the given writes. *)
Definition write_file (path : string) (chunks : list string) : M unit :=
  fun w => (Ok tt, mk_world (web w) (seen_players w)
                            (dict_set (text_files w) path chunks) (json_dumps w)).

(** [open(path, "a")] followed by one write. *)
Definition append_file (path : string) (chunk : string) : M unit :=
  fun w =>
    let old := match dict_get (text_files w) path with
               | Some c => c
               | None => []
               end in
    (Ok tt, mk_world (web w) (seen_players w)
                     (dict_set (text_files w) path (old ++ [chunk])) (json_dumps w)).

(** [json.dump(pdata, open(path, "w"))] *)
Definition dump_json (path : string) (pdata : player_data) : M unit :=
  fun w => (Ok tt, mk_world (web w) (seen_players w) (text_files w)
                            (json_dumps w ++ [(path, pdata)])).

(** [seen_players.add(pid)] *)
Definition mark_seen (pid : string) : M unit :=
  fun w => (Ok tt,
            mk_world (web w)
                     (if existsb (String.eqb pid) (seen_players w)
                      then seen_players w else seen_players w ++ [pid])
                     (text_files w) (json_dumps w)).

(** [pid in seen_players] *)
Definition is_seen (pid : string) : M bool :=
  fun w => (Ok (existsb (String.eqb pid) (seen_players w)), w).

(** The content of the schema log, empty when the file does not exist. *)
Definition schema_log (w : world) : list string :=
  match dict_get (text_files w) METADATA_FILE with
  | Some c => c
  | None => []
  end.

(** [int(th.get("colspan", 1))] *)
Definition colspan_of (th : th_cell) : result Z :=
  match th_colspan th with
  | None => Ok 1%Z
  | Some s => match py_int s with
              | Some z => Ok z
              | None => Raise ValueError
              end
  end.

(** The loop [for th in cells: ....extend([label] * colspan)]: every header
    cell contributes [colspan] copies of its text. *)
Fixpoint expand_spans (cells : list th_cell) : result (list string) :=
  match cells with
  | [] => Ok []
  | th :: rest =>
      match colspan_of th with
      | Raise e => Raise e
      | Ok n =>
          match expand_spans rest with
          | Raise e => Raise e
          | Ok l => Ok (repeat (th_text th) (Z.to_nat n) ++ l)
          end
      end
  end.

(** Whether the [colspan] of a cell converts with [int()], and the number
    of columns the cell then covers (none when the span is not positive). *)
Definition span_ok (th : th_cell) : bool :=
  match colspan_of th with Ok _ => true | Raise _ => false end.

Definition span_width (th : th_cell) : nat :=
  match colspan_of th with Ok n => Z.to_nat n | Raise _ => 0%nat end.

(** [th.get("data-tip", "").strip()] *)
Definition tip_of (th : th_cell) : string :=
  strip (match th_data_tip th with Some t => t | None => "" end).

(** The line [f"{cat},{col}:{unique} | {tip}\n"] of the schema log. *)
Definition metadata_line (cat col uniq tp : string) : string :=
  (cat ++ "," ++ col ++ ":" ++ uniq ++ " | " ++ tp ++ newline)%string.

(* ================================================================= *)
(** ** SchemaRegistry: seeding *)

Module Schema.

(** Lines 46-52: the [(category, column, tip)] of every bottom header cell,
    [cat_map[i] if i < len(cat_map) else ""]. *)
Fixpoint header_triples (cat_map : list string) (i : nat)
    (bottom : list th_cell) : list (string * string * string) :=
  match bottom with
  | [] => []
  | th :: rest =>
      (nth i cat_map "", th_text th, tip_of th)
        :: header_triples cat_map (S i) rest
  end.

Record naming_state := mk_naming {
  name_count : dict string Z;
  meta : metadata
}.

(** [f"{cat[:2].lower()}{base}"] *)
Definition prefixed_name (cat base : string) : string :=
  (lower (take_prefix 2 cat) ++ base)%string.

(** The body of the loop of lines 57-66. *)
Definition name_step (st : naming_state) (t : string * string * string)
    : naming_state :=
  let '(cat, col, tp) := t in
  let key := (cat, col) in
  let base := col in
  match dict_get (name_count st) base with
  | Some n =>
      mk_naming (dict_set (name_count st) base (n + 1)%Z)
                (dict_set (meta st) key (mk_info (prefixed_name cat base) tp))
  | None =>
      mk_naming (dict_set (name_count st) base 1%Z)
                (dict_set (meta st) key (mk_info base tp))
  end.

Definition naming_init : naming_state := mk_naming [] [].

(** Lines 54-66: the map [(category, column)] to unique name. *)
Definition build_meta (triples : list (string * string * string)) : metadata :=
  meta (fold_left name_step triples naming_init).

(** The lines written for a registry, in the order of its items. *)
Definition metadata_lines (m : metadata) : list string :=
  map (fun kv => metadata_line (fst (fst kv)) (snd (fst kv))
                               (unique (snd kv)) (tip (snd kv))) m.

(** [get_table_metadata(url, filename)] *)
Definition get_table_metadata (url : string) (filename : option string)
    : M metadata :=
  soup <- fetch_soup url ;;
  match stats_of soup with
  | None => ret []
  | Some table =>
      triples <-
        match thead table with
        | Some (top :: bottom :: _) =>
            cat_map <- lift (expand_spans top) ;;
            ret (header_triples cat_map 0 bottom)
        | _ => ret []
        end ;;
      let meta := build_meta triples in
      match filename with
      | Some f => write_file f (metadata_lines meta)
      | None => ret tt
      end ;;;
      ret meta
  end.

(** The state of the row loop of [get_table_metadata_for_positions]:
    [found] and the local variable [meta], unbound until first assigned. *)
Record seeding_state := mk_seeding {
  found : dict string metadata;
  meta_var : option metadata
}.

(** ["class" in row.attrs and "thead" in row["class"]] *)
Definition is_thead_row (cls : option (list string)) : bool :=
  match cls with
  | Some l => existsb (String.eqb "thead") l
  | None => false
  end.

(** [ul.find("a", href=True)] *)
Definition first_href (links : list anchor) : option string :=
  match filter (fun a => match a_href a with Some _ => true | None => false end)
               links with
  | a :: _ => a_href a
  | [] => None
  end.

(** Lines 94-123. *)
Fixpoint seeding_loop (positions : list string) (rows : list fantasy_row)
    (st : seeding_state) : M seeding_state :=
  match rows with
  | [] => ret st
  | row :: rest =>
      if is_thead_row (frow_class row) then seeding_loop positions rest st
      else
        match frow_pos row, frow_player row with
        | Some pos, Some (mk_name_cell (Some a) _) =>
            if existsb (String.eqb pos) positions
               && negb (dict_mem (found st) pos)
            then
              href <- match a_href a with
                      | Some h => ret h
                      | None => raise KeyError
                      end ;;
              player_soup <- fetch_soup (BASE_URL ++ href)%string ;;
              match nav_of player_soup with
              | GameLogList links =>
                  match first_href links with
                  | None => seeding_loop positions rest st
                  | Some h =>
                      meta <- get_table_metadata (BASE_URL ++ h)%string None ;;
                      let found' := dict_set (found st) pos meta in
                      let st' := mk_seeding found' (Some meta) in
                      if (List.length found' =? List.length positions)%nat
                      then ret st'
                      else seeding_loop positions rest st'
                  end
              | _ => seeding_loop positions rest st
              end
            else seeding_loop positions rest st
        | _, _ => seeding_loop positions rest st
        end
  end.

(** Lines 125-128: [merged = {}; for m in found.values(): merged.update(m)] *)
Definition merge_found (found : dict string metadata) : metadata :=
  fold_left dict_update (dict_values found) [].

Definition default_positions : list string := ["QB"; "RB"; "WR"; "TE"].

(** [get_table_metadata_for_positions(year, positions, filename)] *)
Definition get_table_metadata_for_positions (year : Z)
    (positions : list string) (filename : string) : M metadata :=
  let url := (BASE_URL ++ "/years/" ++ str_of_int year ++ "/fantasy.htm")%string in
  soup <- fetch_soup url ;;
  match fantasy_of soup with
  | None => ret []
  | Some table =>
      rows <- match table with
              | Some rows => ret rows
              | None => raise AttributeError
              end ;;
      st <- seeding_loop positions rows (mk_seeding [] None) ;;
      let merged := merge_found (found st) in
      (* the file is written from the local [meta], not from [merged] *)
      match meta_var st with
      | Some meta => write_file filename (metadata_lines meta)
      | None => write_file filename [] ;;; raise UnboundLocalError
      end ;;;
      ret merged
  end.

(** The disambiguation rule in the words of the specification: in encounter
    order, a column label not seen before is its own canonical name, a label
    seen before is prefixed with the lowercase first two characters of its
    category.  [seen] lists the labels already met. *)
Fixpoint spec_names (seen : list string)
    (triples : list (string * string * string)) : list string :=
  match triples with
  | [] => []
  | (cat, col, _) :: rest =>
      (if existsb (String.eqb col) seen
       then (lower (take_prefix 2 cat) ++ col)%string
       else col) :: spec_names (col :: seen) rest
  end.

(** Recording, in order, canonical name [n] and tooltip for each triple. *)
Definition record_names (triples : list (string * string * string))
    (names : list string) (m : metadata) : metadata :=
  fold_left
    (fun m tn =>
       let '((cat, col, tp), n) := tn in dict_set m (cat, col) (mk_info n tp))
    (combine triples names) m.

Definition cat_of (t : string * string * string) : string := fst (fst t).
Definition col_of (t : string * string * string) : string := snd (fst t).

(** [cat[:2].lower()] *)
Definition category_prefix (cat : string) : string :=
  lower (take_prefix 2 cat).

(** The precondition of the specification: two triples with the same
    column label have different categories. *)
Definition distinct_categories (triples : list (string * string * string))
    : Prop :=
  forall i j ti tj, (i < j)%nat ->
    nth_error triples i = Some ti -> nth_error triples j = Some tj ->
    col_of ti = col_of tj -> cat_of ti <> cat_of tj.

(** The precondition under which the two-character prefix tells the keys
    apart: two triples with the same column label have different category
    prefixes, the later one a category of at least two characters, and no
    column label of the sequence is the prefixed name of the later one. *)
Definition distinct_prefixes (triples : list (string * string * string))
    : Prop :=
  forall i j ti tj, (i < j)%nat ->
    nth_error triples i = Some ti -> nth_error triples j = Some tj ->
    col_of ti = col_of tj ->
    category_prefix (cat_of ti) <> category_prefix (cat_of tj) /\
    (2 <= String.length (cat_of tj))%nat /\
    forall tk, In tk triples ->
               col_of tk <> prefixed_name (cat_of tj) (col_of tj).

(** What the row loop of seeding keeps true: the positions found are
    distinct and wanted, and the local [meta] is unbound as long as nothing
    is found, the registry of the position found last afterwards. *)
Definition seeding_inv (positions : list string) (st : seeding_state) : Prop :=
  NoDup (dict_keys (found st)) /\
  (forall p, In p (dict_keys (found st)) -> In p positions) /\
  ((found st = [] /\ meta_var st = None) \/
   exists fnd pos m, found st = fnd ++ [(pos, m)] /\ meta_var st = Some m).

End Schema.

(* ================================================================= *)
(** ** RecordNormalizer: [scrape_gamelog] *)

(** The digits of one part of a float literal: value and number of digits. *)
Fixpoint digit_part (acc : Z) (n : nat) (after_digit : bool) (s : string)
    : option (Z * nat) :=
  match s with
  | EmptyString => if after_digit then Some (acc, n) else None
  | String c s' =>
      if is_digit c then
        digit_part (acc * 10 + Z.of_nat (nat_of_ascii c - 48)) (S n) true s'
      else if Ascii.eqb c "_"%char then
        if after_digit then digit_part acc n false s' else None
      else None
  end.

(** [s] cut at the first character satisfying [p]. *)
Fixpoint split_at (p : ascii -> bool) (s : string) : string * option string :=
  match s with
  | EmptyString => (EmptyString, None)
  | String c s' =>
      if p c then (EmptyString, Some s')
      else let '(a, b) := split_at p s' in (String c a, b)
  end.

Definition signed_digits (s : string) : option Z :=
  match s with
  | String "+"%char d => int_digits 0 false d
  | String "-"%char d => option_map Z.opp (int_digits 0 false d)
  | d => int_digits 0 false d
  end.

(** [float(s)] on decimal literals (sign, integer part, fraction, exponent);
    [None] stands for [ValueError]. *)
Definition py_float (s : string) : option Q :=
  let s := strip s in
  let '(neg, body) :=
    match s with
    | String "+"%char r => (false, r)
    | String "-"%char r => (true, r)
    | _ => (false, s)
    end in
  let '(mant, ex) :=
    split_at (fun c => Ascii.eqb c "e"%char || Ascii.eqb c "E"%char) body in
  let '(ip, fp) := split_at (Ascii.eqb "."%char) mant in
  let exponent :=
    match ex with
    | None => Some 0%Z
    | Some e => signed_digits e
    end in
  let int_part :=
    match ip with
    | EmptyString => None
    | _ => option_map fst (digit_part 0 0 false ip)
    end in
  let frac_part :=
    match fp with
    | None | Some EmptyString => None
    | Some f => digit_part 0 0 false f
    end in
  let mantissa :=
    match ip, fp with
    | EmptyString, (None | Some EmptyString) => None
    | EmptyString, Some _ =>
        option_map (fun '(v, n) => inject_Z v / inject_Z (10 ^ Z.of_nat n)) frac_part
    | _, (None | Some EmptyString) => option_map inject_Z int_part
    | _, Some _ =>
        match int_part, frac_part with
        | Some i, Some (v, n) =>
            Some (inject_Z i + inject_Z v / inject_Z (10 ^ Z.of_nat n))
        | _, _ => None
        end
    end in
  match mantissa, exponent with
  | Some m, Some e =>
      let v := m * Qpower 10 e in
      Some (if neg then - v else v)
  | _, _ => None
  end.

(** Truth value of a stats value, [None] (a missing key) being false. *)
Definition truthy (v : pyval) : bool :=
  match v with
  | PInt z => negb (z =? 0)%Z
  | PFloat q => negb (Qeq_bool q 0)
  | PStr s => negb (String.eqb s "")
  end.

(** [str(v).isdigit()]: the text of an [int] is its decimal writing; the
    text of a [float] always has a point, an exponent, [inf] or [nan]. *)
Definition str_isdigit (v : pyval) : bool :=
  match v with
  | PInt z => isdigit (str_of_int z)
  | PFloat _ => false
  | PStr s => isdigit s
  end.

(** [int(v)] *)
Definition int_of (v : pyval) : result Z :=
  match v with
  | PInt z => Ok z
  | PFloat q => Ok (if Qle_bool 0 q then Qfloor q else Qceiling q)
  | PStr s => match py_int s with
              | Some z => Ok z
              | None => Raise ValueError
              end
  end.

(** [a or b] on stats values that may be missing. *)
Definition py_or (a : option pyval) (b : pyval) : pyval :=
  match a with
  | Some v => if truthy v then v else b
  | None => b
  end.

Module Normalizer.

(** Lines 229-237: the bottom header cells paired with their category, the
    rank column left out; [idx] counts all bottom cells. *)
Fixpoint col_pairs_from (over_headers : list string) (idx : nat)
    (bottom : list th_cell) : list (string * string * string) :=
  match bottom with
  | [] => []
  | th :: rest =>
      match th_data_stat th with
      | Some "ranker" => col_pairs_from over_headers (S idx) rest
      | _ =>
          (nth idx over_headers "", th_text th, tip_of th)
            :: col_pairs_from over_headers (S idx) rest
      end
  end.

(** [f"{cat}_{col}".strip("_")] *)
Definition fallback_name (cat col : string) : string :=
  strip_underscore (cat ++ "_" ++ col)%string.

(** Lines 239-251: canonical names of the columns; an unknown header gets
    its fallback name and one line appended to the schema log. *)
Fixpoint map_headers (metadata_map : metadata)
    (col_pairs : list (string * string * string)) : M (list string) :=
  match col_pairs with
  | [] => ret []
  | (cat, col, tp) :: rest =>
      h <- match dict_get metadata_map (cat, col) with
           | Some info => ret (unique info)
           | None =>
               let fallback := fallback_name cat col in
               append_file METADATA_FILE (metadata_line cat col fallback tp) ;;;
               ret fallback
           end ;;
      hs <- map_headers metadata_map rest ;;
      ret (h :: hs)
  end.

(** Lines 268-271: [float(val) if "." in val else int(val)], the text itself
    on [ValueError]. *)
Definition coerce (val : string) : pyval :=
  if contains "." val then
    match py_float val with
    | Some q => PFloat q
    | None => PStr val
    end
  else
    match py_int val with
    | Some z => PInt z
    | None => PStr val
    end.

(** Lines 263-271: cell [i] of [cells[1:]] goes under [headers[i]]; cells
    beyond the headers are skipped. *)
Fixpoint assign_cells (headers : list string) (cells : list string)
    (game_data : dict string pyval) : dict string pyval :=
  match cells, headers with
  | val :: cells', header :: headers' =>
      assign_cells headers' cells' (dict_set game_data header (coerce val))
  | _, _ => game_data
  end.

(** Lines 273-277: every unique name of the registry missing from the row
    is set to [0]. *)
Definition fill_missing (metadata_map : metadata)
    (game_data : dict string pyval) : dict string pyval :=
  fold_left
    (fun gd info =>
       if dict_mem gd (unique info) then gd
       else dict_set gd (unique info) (PInt 0))
    (dict_values metadata_map) game_data.

(** The stats of a row whose first cell has been dropped. *)
Definition row_stats (headers : list string) (metadata_map : metadata)
    (cells : list string) : dict string pyval :=
  fill_missing metadata_map (assign_cells headers cells []).

(** Lines 279-292: the game made from the stats of a row, if its week is
    acceptable. *)
Definition make_game (game_data : dict string pyval) : result (option game) :=
  match dict_get game_data "Week" with
  | None => Ok None
  | Some week_val =>
      if negb (truthy week_val) || negb (str_isdigit week_val) then Ok None
      else
        match int_of week_val with
        | Raise e => Raise e
        | Ok wk =>
            Ok (Some
              (mk_game wk
                 (match dict_get game_data "Date" with
                  | Some v => v | None => PStr "" end)
                 (py_or (dict_get game_data "Tm")
                        (py_or (dict_get game_data "Team") (PStr "")))
                 (match dict_get game_data "Opp" with
                  | Some v => v | None => PStr "" end)
                 (match dict_get game_data "game_location" with
                  | Some (PStr "@") => false
                  | _ => true
                  end)
                 game_data
                 (Scoring.calc_fantasy game_data)))
        end
  end.

(** The body of the row loop, lines 256-292. *)
Definition row_game (headers : list string) (metadata_map : metadata)
    (row : body_row) : result (option game) :=
  if Schema.is_thead_row (row_class row) then Ok None
  else
    match row_cells row with
    | [] => Ok None
    | first :: rest =>
        if negb (isdigit first) then Ok None
        else make_game (row_stats headers metadata_map rest)
    end.

(** The row loop, lines 254-292. *)
Fixpoint rows_games (headers : list string) (metadata_map : metadata)
    (rows : list body_row) : result (list game) :=
  match rows with
  | [] => Ok []
  | row :: rest =>
      match row_game headers metadata_map row with
      | Raise e => Raise e
      | Ok og =>
          match rows_games headers metadata_map rest with
          | Raise e => Raise e
          | Ok gs => Ok (match og with Some g => g :: gs | None => gs end)
          end
      end
  end.

(** The header pairs of a table, lines 220-237. *)
Definition table_col_pairs (table : stats_table)
    : result (list (string * string * string)) :=
  match thead table with
  | None => Raise AttributeError
  | Some rows =>
      match expand_spans (List.concat (removelast rows)) with
      | Raise e => Raise e
      | Ok over_headers =>
          match rev rows with
          | [] => Raise IndexError
          | bottom :: _ => Ok (col_pairs_from over_headers 0 bottom)
          end
      end
  end.

(** [scrape_gamelog(url, metadata_map)] *)
Definition scrape_gamelog (url : string) (metadata_map : metadata)
    : M (option year_data) :=
  soup <- fetch_soup url ;;
  match stats_of soup with
  | None => ret None
  | Some table =>
      col_pairs <- lift (table_col_pairs table) ;;
      headers <- map_headers metadata_map col_pairs ;;
      rows <- match tbody table with
              | Some rows => ret rows
              | None => raise AttributeError
              end ;;
      games <- lift (rows_games headers metadata_map rows) ;;
      ret (Some (mk_year games))
  end.

(** What [map_headers] yields for one header pair, and the lines it appends
    to the schema log for a list of pairs. *)
Definition resolved_name (metadata_map : metadata)
    (p : string * string * string) : string :=
  let '(cat, col, _) := p in
  match dict_get metadata_map (cat, col) with
  | Some info => unique info
  | None => fallback_name cat col
  end.

Definition appended_lines (metadata_map : metadata)
    (col_pairs : list (string * string * string)) : list string :=
  flat_map
    (fun '(cat, col, tp) =>
       match dict_get metadata_map (cat, col) with
       | Some _ => []
       | None => [metadata_line cat col (fallback_name cat col) tp]
       end) col_pairs.

(** What [scrape_gamelog] returns or raises on a given site; the files and
    the seen players play no part in it. *)
Definition gamelog_outcome (site : string -> option soup) (url : string)
    (metadata_map : metadata) : result (option year_data) :=
  fst (scrape_gamelog url metadata_map (mk_world site [] [] [])).

End Normalizer.

(* ================================================================= *)
(** ** IngestionOrchestrator *)

Module Orchestrator.

(** Lines 190-201 of [scrape_player]: the year to URL map of the game-log
    links within the year range. *)
Fixpoint collect_year_links (links : list anchor) (year_links : dict Z string)
    : result (dict Z string) :=
  match links with
  | [] => Ok year_links
  | link :: rest =>
      match a_href link with
      | None => collect_year_links rest year_links
      | Some href =>
          if negb (contains "/gamelog/" href) then
            collect_year_links rest year_links
          else
            let year := a_text link in
            if negb (isdigit year) then collect_year_links rest year_links
            else
              match py_int year with
              | None => Raise ValueError
              | Some y =>
                  if (y <? START_YEAR)%Z || (END_YEAR <? y)%Z then
                    collect_year_links rest year_links
                  else
                    collect_year_links rest
                      (dict_set year_links y (BASE_URL ++ href)%string)
              end
      end
  end.

Fixpoint insert_by_year (x : Z * string) (l : list (Z * string))
    : list (Z * string) :=
  match l with
  | [] => [x]
  | y :: l' =>
      if (fst x <=? fst y)%Z then x :: l else y :: insert_by_year x l'
  end.

(** [sorted(year_links.items())]; the years of a dict are distinct. *)
Definition sorted_items (d : dict Z string) : list (Z * string) :=
  fold_right insert_by_year [] d.

(** Lines 203-209: the loop over the years. *)
Fixpoint scrape_years (metadata_map : metadata) (items : list (Z * string))
    (data : player_data) : M player_data :=
  match items with
  | [] => ret data
  | (year, year_url) :: rest =>
      year_data <- Normalizer.scrape_gamelog year_url metadata_map ;;
      let data' :=
        match year_data with
        | Some yd =>
            mk_player (p_name data) (p_id data)
                      (dict_set (years data) (str_of_int year) yd)
        | None => data
        end in
      scrape_years metadata_map rest data'
  end.

(** [scrape_player(player_id, player_name, player_url, metadata_map)] *)
Definition scrape_player (player_id player_name player_url : string)
    (metadata_map : metadata) : M (option player_data) :=
  seen <- is_seen player_id ;;
  if seen : bool then ret None
  else
    mark_seen player_id ;;;
    let data := mk_player player_name player_id [] in
    soup <- fetch_soup player_url ;;
    match nav_of soup with
    | GameLogList links =>
        year_links <- lift (collect_year_links links []) ;;
        data' <- scrape_years metadata_map (sorted_items year_links) data ;;
        ret (Some data')
    | _ => ret (Some data)
    end.

(** A unit of work, the argument tuple of [scrape_wrapper]. *)
Definition unit_of_work := (string * string * string * metadata)%type.

(** [os.path.join(DATA_DIR, f"{pid}.json")] *)
Definition data_path (pid : string) : string :=
  match pid with
  | String "/"%char _ => (pid ++ ".json")%string
  | _ => (DATA_DIR ++ "/" ++ pid ++ ".json")%string
  end.

(** [scrape_wrapper(args)] of [scrape_parallel.py]: any exception of the
    unit is caught and turned into [None]. *)
Definition scrape_wrapper (args : unit_of_work) : M (option player_data) :=
  let '(pid, name, url, metadata_map) := args in
  fun w =>
    match (pdata <- scrape_player pid name url metadata_map ;;
           match pdata with
           | Some d => dump_json (data_path pid) d
           | None => ret tt
           end ;;;
           ret pdata) w with
    | (Ok r, w') => (Ok r, w')
    | (Raise _, w') => (Ok None, w')
    end.

(** The rows of the ranking table turned into [(id, name, link)], lines
    153-162 of [get_players_for_year]. *)
Fixpoint players_of_rows (rows : list fantasy_row)
    : result (list (string * string * string)) :=
  match rows with
  | [] => Ok []
  | row :: rest =>
      if Schema.is_thead_row (frow_class row) then players_of_rows rest
      else
        match frow_player row with
        | Some (mk_name_cell (Some a) csv) =>
            match csv, a_href a with
            | Some pid, Some href =>
                match players_of_rows rest with
                | Raise e => Raise e
                | Ok l => Ok ((pid, a_text a, (BASE_URL ++ href)%string) :: l)
                end
            | _, _ => Raise KeyError
            end
        | _ => players_of_rows rest
        end
  end.

(** [get_players_for_year(year)] *)
Definition get_players_for_year (year : Z)
    : M (list (string * string * string)) :=
  let url := (BASE_URL ++ "/years/" ++ str_of_int year ++ "/fantasy.htm")%string in
  soup <- fetch_soup url ;;
  match fantasy_of soup with
  | Some (Some rows) => lift (players_of_rows rows)
  | _ => raise AttributeError
  end.

(** [range(START_YEAR, END_YEAR + 1)] *)
Definition year_range : list Z :=
  map (fun i => (START_YEAR + Z.of_nat i)%Z)
      (seq 0 (Z.to_nat (END_YEAR + 1 - START_YEAR))).

(** *** The sequential run, [__main__] of [fantasy_data_scrape.py] *)

Fixpoint sequential_players (metadata_map : metadata)
    (players : list (string * string * string)) : M unit :=
  match players with
  | [] => ret tt
  | (pid, name, url) :: rest =>
      seen <- is_seen pid ;;
      if seen : bool then sequential_players metadata_map rest
      else
        pdata <- scrape_player pid name url metadata_map ;;
        match pdata with
        | Some d => dump_json ("data/" ++ pid ++ ".json")%string d
        | None => ret tt
        end ;;;
        sequential_players metadata_map rest
  end.

Fixpoint sequential_years (metadata_map : metadata) (yrs : list Z) : M unit :=
  match yrs with
  | [] => ret tt
  | year :: rest =>
      players <- get_players_for_year year ;;
      sequential_players metadata_map players ;;;
      sequential_years metadata_map rest
  end.

Definition sequential_main : M unit :=
  metadata_map <- Schema.get_table_metadata_for_positions
                    START_YEAR Schema.default_positions METADATA_FILE ;;
  sequential_years metadata_map year_range.

(** *** The parallel run, [scrape_parallel.py] *)

(** Lines 39-44 of [main].  [for pid, name, _, url in players] unpacks into
    four names the triples that [get_players_for_year] returns: the first
    player of the first year that has one raises [ValueError]. *)
Fixpoint gather_players (metadata_map : metadata) (yrs : list Z)
    (all_players : list unit_of_work) : M (list unit_of_work) :=
  match yrs with
  | [] => ret all_players
  | year :: rest =>
      players <- get_players_for_year year ;;
      match players with
      | [] => gather_players metadata_map rest all_players
      | _ :: _ => raise ValueError
      end
  end.

Fixpoint replace_nth {A} (n : nat) (x : A) (l : list A) : list A :=
  match l, n with
  | [], _ => []
  | _ :: l', O => x :: l'
  | y :: l', S n' => y :: replace_nth n' x l'
  end.

Definition with_seen (w : world) (seen : list string) : world :=
  mk_world (web w) seen (text_files w) (json_dumps w).

(** [pool.map(scrape_wrapper, units)].  The workers are processes: each has
    its own copy of the module global [seen_players], taken when the pool
    starts; the site and the files are shared.  The units are taken in list
    order, unit [i] by worker [schedule i]; [seens] holds the workers'
    copies of [seen_players]. *)
Fixpoint pool_run (schedule : list nat) (units : list unit_of_work)
    (seens : list (list string)) (w : world)
    : list (option player_data) * list (list string) * world :=
  match units with
  | [] => ([], seens, w)
  | u :: rest =>
      let k := (hd 0 schedule mod List.length seens)%nat in
      let '(r, w') := scrape_wrapper u (with_seen w (nth k seens [])) in
      let seens' := replace_nth k (seen_players w') seens in
      let '(rs, seens'', w'') :=
        pool_run (tl schedule) rest seens' (with_seen w' (seen_players w)) in
      (match r with Ok v => v | Raise _ => None end :: rs, seens'', w'')
  end.

Definition pool_map (workers : nat) (schedule : list nat)
    (units : list unit_of_work) : M (list (option player_data)) :=
  fun w =>
    let '(rs, _, w') :=
      pool_run schedule units (repeat (seen_players w) workers) w in
    (Ok rs, w').

(** [main()], on a machine with [cpus] processors. *)
Definition main (cpus : nat) (schedule : list nat) : M unit :=
  metadata_map <- Schema.get_table_metadata_for_positions
                    START_YEAR Schema.default_positions METADATA_FILE ;;
  all_players <- gather_players metadata_map year_range [] ;;
  let workers := Nat.min cpus 8 in
  pool_map workers schedule all_players ;;;
  ret tt.

(** The years kept by the loop of [scrape_player] when no year raises:
    those whose page has a stats table. *)
Definition kept_years (site : string -> option soup) (metadata_map : metadata)
    (items : list (Z * string)) (ys : dict string year_data)
    : dict string year_data :=
  fold_left
    (fun ys '(year, year_url) =>
       match Normalizer.gamelog_outcome site year_url metadata_map with
       | Ok (Some yd) => dict_set ys (str_of_int year) yd
       | _ => ys
       end) items ys.

End Orchestrator.

(* ================================================================= *)
(** ** A small site, used to run the functions on concrete pages *)

Module Sample.

Definition th (text : string) : th_cell := mk_th text None None None.
Definition th_span (text span : string) : th_cell :=
  mk_th text (Some span) None None.
Definition th_rank : th_cell := mk_th "Rk" None None (Some "ranker").

(** A quarterback's game log without snap counts. *)
Definition qb_log_2010 : soup :=
  mk_soup
    (Some (mk_stats
       (Some [[th_span "" "3"; th_span "Passing" "2"];
              [th_rank; th "Week"; th "Date"; th "Yds"; th "TD"]])
       (Some [mk_row None ["1"; "1"; "2010-09-12"; "258"; "3"];
              mk_row (Some ["thead"]) ["Rk"; "Week"; "Date"; "Yds"; "TD"];
              mk_row None ["Rk"; "Week"; "Date"; "Yds"; "TD"];
              mk_row None ["2"; ""; "2010-09-19"; "248"; "2"];
              mk_row None ["3"; "3"; "2010-09-26"; "252.5"; "3"]])))
    None NoNav.

(** The same player's later logs, with a Snaps/Pct column. *)
Definition qb_log_snaps (day : string) : soup :=
  mk_soup
    (Some (mk_stats
       (Some [[th_span "" "3"; th_span "Passing" "2"; th "Snaps"];
              [th_rank; th "Week"; th "Date"; th "Yds"; th "TD";
               mk_th "Pct" None (Some " Snap share ") None]])
       (Some [mk_row None ["1"; "1"; day; "300"; "2"; "98%"]])))
    None NoNav.

(** A running back's game log. *)
Definition rb_log_2010 : soup :=
  mk_soup
    (Some (mk_stats
       (Some [[th_span "" "3"; th_span "Rushing" "2"];
              [th_rank; th "Week"; th "Date"; th "Att"; th "Yds"]])
       (Some [mk_row None ["1"; "1"; "2010-09-09"; "19"; "87"]])))
    None NoNav.

Definition qb_page : soup :=
  mk_soup None None
    (GameLogList
       [mk_a "Career" (Some "/players/B/BradTo00/gamelog/");
        mk_a "2010" (Some "/players/B/BradTo00/gamelog/2010/");
        mk_a "2011" (Some "/players/B/BradTo00/gamelog/2011/");
        mk_a "2012" (Some "/players/B/BradTo00/gamelog/2012/")]).

(** The running back has a 2010 log; the page of his 2011 log cannot be
    fetched. *)
Definition rb_page : soup :=
  mk_soup None None
    (GameLogList
       [mk_a "2010" (Some "/players/P/PeteAd01/gamelog/2010/");
        mk_a "2011" (Some "/players/P/PeteAd01/gamelog/2011/")]).

Definition player_row (pos pid name href : string) : fantasy_row :=
  mk_frow None (Some pos)
          (Some (mk_name_cell (Some (mk_a name (Some href))) (Some pid))).

Definition ranking_2010 : soup :=
  mk_soup None
    (Some (Some [mk_frow (Some ["thead"]) None None;
                 player_row "QB" "BradTo00" "Tom Brady" "/players/B/BradTo00.htm";
                 player_row "RB" "PeteAd01" "Adrian Peterson"
                            "/players/P/PeteAd01.htm"]))
    NoNav.

Definition pages : dict string soup :=
  [((BASE_URL ++ "/years/2010/fantasy.htm")%string, ranking_2010);
   ((BASE_URL ++ "/players/B/BradTo00.htm")%string, qb_page);
   ((BASE_URL ++ "/players/P/PeteAd01.htm")%string, rb_page);
   ((BASE_URL ++ "/players/B/BradTo00/gamelog/")%string, qb_log_2010);
   ((BASE_URL ++ "/players/B/BradTo00/gamelog/2010/")%string, qb_log_2010);
   ((BASE_URL ++ "/players/B/BradTo00/gamelog/2011/")%string,
    qb_log_snaps "2011-09-12");
   ((BASE_URL ++ "/players/B/BradTo00/gamelog/2012/")%string,
    qb_log_snaps "2012-09-09");
   ((BASE_URL ++ "/players/P/PeteAd01/gamelog/2010/")%string, rb_log_2010)].

(** The world at the start of a run: nothing seen, no file written. *)
Definition start : world := mk_world (dict_get pages) [] [] [].

(** A registry that knows the columns of [qb_log_2010]. *)
Definition registry : metadata :=
  [(("", "Week"), mk_info "Week" ""); (("", "Date"), mk_info "Date" "");
   (("Passing", "Yds"), mk_info "Yds" ""); (("Passing", "TD"), mk_info "TD" "");
   (("Rushing", "Att"), mk_info "Att" "")].

Definition qb_unit : Orchestrator.unit_of_work :=
  ("BradTo00", "Tom Brady", (BASE_URL ++ "/players/B/BradTo00.htm")%string,
   registry).

Definition rb_unit : Orchestrator.unit_of_work :=
  ("PeteAd01", "Adrian Peterson",
   (BASE_URL ++ "/players/P/PeteAd01.htm")%string, registry).

End Sample.

(* ================================================================= *)
(** * Properties *)

(** ** Dictionaries *)

#[export] Instance string_KeyEqLaws : KeyEqLaws string := String.eqb_eq.

#[export] Instance Z_KeyEqLaws : KeyEqLaws Z := Z.eqb_eq.

#[export] Instance pair_KeyEqLaws {A B} `{KeyEqLaws A} `{KeyEqLaws B} :
  KeyEqLaws (A * B).
Proof.
  intros [a b] [a' b']. unfold keqb, pair_KeyEq; simpl.
  rewrite andb_true_iff, !keqb_eq. split.
  - intros [-> ->]; reflexivity.
  - intros E; inversion E; auto.
Qed.

Lemma keqb_string (a b : string) : keqb a b = String.eqb a b.
Proof. reflexivity. Qed.

Lemma keqb_refl {K} `{KeyEqLaws K} (k : K) : keqb k k = true.
Proof. apply keqb_eq; reflexivity. Qed.

Lemma keqb_neq {K} `{KeyEqLaws K} (a b : K) : keqb a b = false <-> a <> b.
Proof.
  split.
  - intros E Heq. apply keqb_eq in Heq. congruence.
  - intros N. destruct (keqb a b) eqn:E; auto. apply keqb_eq in E. contradiction.
Qed.

Section DictFacts.
Context {K V : Type} `{KeyEqLaws K}.
Implicit Types (d : dict K V) (k : K) (v : V).

Lemma dict_get_set_same d k v : dict_get (dict_set d k v) k = Some v.
Proof.
  induction d as [|[k' v'] d IH]; simpl.
  - now rewrite keqb_refl.
  - destruct (keqb k' k) eqn:E; simpl; rewrite E; auto.
Qed.

Lemma dict_get_set_other d k k' v :
  k <> k' -> dict_get (dict_set d k v) k' = dict_get d k'.
Proof.
  intros N. induction d as [|[k0 v0] d IH]; simpl.
  - apply keqb_neq in N. now rewrite N.
  - destruct (keqb k0 k) eqn:E; simpl.
    + apply keqb_eq in E; subst k0.
      apply keqb_neq in N. now rewrite N.
    + destruct (keqb k0 k'); auto.
Qed.

Lemma dict_get_set d k k' v :
  dict_get (dict_set d k v) k' = if keqb k k' then Some v else dict_get d k'.
Proof.
  destruct (keqb k k') eqn:E.
  - apply keqb_eq in E; subst. apply dict_get_set_same.
  - apply dict_get_set_other. now apply keqb_neq.
Qed.

Lemma dict_get_In d k v : dict_get d k = Some v -> In (k, v) d.
Proof.
  induction d as [|[k' v'] d IH]; simpl; [discriminate|].
  destruct (keqb k' k) eqn:E.
  - apply keqb_eq in E; subst. intros [= ->]. now left.
  - intros G. right. auto.
Qed.

Lemma dict_get_None d k : dict_get d k = None <-> ~ In k (dict_keys d).
Proof.
  induction d as [|[k' v'] d IH]; simpl.
  - tauto.
  - destruct (keqb k' k) eqn:E.
    + apply keqb_eq in E; subst. split; [discriminate | tauto].
    + apply keqb_neq in E. rewrite IH. tauto.
Qed.

Lemma dict_mem_In d k : dict_mem d k = true <-> In k (dict_keys d).
Proof.
  unfold dict_mem. destruct (dict_get d k) eqn:E.
  - split; auto. intros _. apply dict_get_In in E.
    apply (in_map fst) in E. exact E.
  - apply dict_get_None in E. split; [discriminate | tauto].
Qed.

Lemma dict_keys_set d k v :
  dict_keys (dict_set d k v) =
  if dict_mem d k then dict_keys d else dict_keys d ++ [k].
Proof.
  unfold dict_mem. induction d as [|[k' v'] d IH]; simpl; auto.
  destruct (keqb k' k) eqn:E; simpl; auto.
  rewrite IH. destruct (dict_get d k); auto.
Qed.

Lemma dict_keys_set_In d k v k' :
  In k' (dict_keys (dict_set d k v)) <-> k' = k \/ In k' (dict_keys d).
Proof.
  rewrite dict_keys_set. destruct (dict_mem d k) eqn:E.
  - apply dict_mem_In in E. split; [tauto|]. intros [->|]; auto.
  - rewrite in_app_iff; simpl. intuition.
Qed.

Lemma dict_keys_set_NoDup d k v :
  NoDup (dict_keys d) -> NoDup (dict_keys (dict_set d k v)).
Proof.
  intros ND. rewrite dict_keys_set. destruct (dict_mem d k) eqn:E; auto.
  assert (NI : ~ In k (dict_keys d)).
  { intros I. apply dict_mem_In in I. congruence. }
  apply NoDup_app; auto.
  - constructor; [intros []|constructor].
  - intros x Ix [<-|[]]. contradiction.
Qed.

Lemma dict_In_get d k v :
  NoDup (dict_keys d) -> In (k, v) d -> dict_get d k = Some v.
Proof.
  induction d as [|[k' v'] d IH]; simpl; [tauto|].
  intros ND [E|I]; inversion ND as [|? ? NI ND']; subst.
  - inversion E; subst. now rewrite keqb_refl.
  - destruct (keqb k' k) eqn:E; auto.
    apply keqb_eq in E; subst. exfalso. apply NI.
    apply (in_map fst) in I. exact I.
Qed.
End DictFacts.

(** ** Rounding *)








(** ** ScoringEngine *)

Import Scoring.









(** ** SchemaRegistry: seeding *)

Import Schema.

Lemma name_count_tracks_seen (st : naming_state) (seen : list string)
    (t : string * string * string) :
  (forall c, dict_mem (name_count st) c = existsb (String.eqb c) seen) ->
  forall c, dict_mem (name_count (name_step st t)) c
            = existsb (String.eqb c) (snd (fst t) :: seen).
Proof.
  intros Inv c. destruct t as [[cat col] tp]; simpl.
  pose proof (Inv c) as Ic. unfold dict_mem in *.
  destruct (dict_get (name_count st) col) eqn:G; simpl;
    rewrite dict_get_set; unfold keqb, string_KeyEq;
    rewrite (String.eqb_sym c col);
    destruct (String.eqb col c) eqn:E; simpl; auto.
Qed.

Lemma existsb_rev {A} (p : A -> bool) (l : list A) :
  existsb p (rev l) = existsb p l.
Proof.
  induction l as [|a l IH]; simpl; auto.
  rewrite existsb_app, IH; simpl. rewrite orb_false_r. apply orb_comm.
Qed.

Lemma name_step_meta (st : naming_state) (seen : list string)
    (cat col tp : string) :
  (forall c, dict_mem (name_count st) c = existsb (String.eqb c) seen) ->
  meta (name_step st (cat, col, tp)) =
  dict_set (meta st) (cat, col)
    (mk_info (if existsb (String.eqb col) seen
              then prefixed_name cat col else col) tp).
Proof.
  intros Inv. specialize (Inv col). unfold dict_mem in Inv. simpl.
  destruct (dict_get (name_count st) col); rewrite <- Inv; reflexivity.
Qed.

Lemma naming_loop_spec (triples : list (string * string * string)) :
  forall (st : naming_state) (seen : list string),
    (forall c, dict_mem (name_count st) c = existsb (String.eqb c) seen) ->
    meta (fold_left name_step triples st)
    = record_names triples (spec_names seen triples) (meta st).
Proof.
  induction triples as [|[[cat col] tp] rest IH]; intros st seen Inv.
  - reflexivity.
  - cbn [fold_left]. rewrite (IH _ (col :: seen)).
    + rewrite (name_step_meta st seen) by exact Inv. reflexivity.
    + exact (name_count_tracks_seen st seen (cat, col, tp) Inv).
Qed.

(** C4.  Seeding takes the triples in encounter order: the registry built by
    the loop of [get_table_metadata] is the one obtained by recording, for
    each triple in turn, the column label itself when the label has not been
    seen before and otherwise the label prefixed with the lowercase first two
    characters of the category; categories Passing, Passing, Rushing with
    columns Yds, TD, Yds give the names Yds, TD, ruYds. *)
Theorem seeding_names_in_encounter_order :
  (forall triples,
     build_meta triples = record_names triples (spec_names [] triples) []) /\
  (forall pre cat col tp,
     spec_names [] (pre ++ [(cat, col, tp)])
     = spec_names [] pre ++
       [if existsb (String.eqb col) (map (fun t => snd (fst t)) pre)
        then (lower (take_prefix 2 cat) ++ col)%string else col]) /\
  map (fun kv => unique (snd kv))
      (build_meta [("Passing", "Yds", ""); ("Passing", "TD", "");
                   ("Rushing", "Yds", "")])
  = ["Yds"; "TD"; "ruYds"].
Proof.
  split; [|split].
  - intros triples. unfold build_meta.
    apply (naming_loop_spec triples naming_init []). reflexivity.
  - intros pre cat col tp.
    assert (G : forall seen,
      spec_names seen (pre ++ [(cat, col, tp)])
      = spec_names seen pre ++
        [if existsb (String.eqb col)
              (rev (map (fun t => snd (fst t)) pre) ++ seen)
         then (lower (take_prefix 2 cat) ++ col)%string else col]).
    { induction pre as [|[[c l] t] pre IH]; intros seen; simpl.
      - reflexivity.
      - rewrite IH. rewrite <- app_assoc. reflexivity. }
    rewrite G. rewrite app_nil_r.
    replace (existsb (String.eqb col) (rev (map (fun t => snd (fst t)) pre)))
      with (existsb (String.eqb col) (map (fun t => snd (fst t)) pre)); auto.
    rewrite existsb_rev. reflexivity.
  - reflexivity.
Qed.

Lemma existsb_eqb_In (c : string) (l : list string) :
  existsb (String.eqb c) l = true <-> In c l.
Proof.
  rewrite existsb_exists. split.
  - intros [x [I E]]. apply String.eqb_eq in E. now subst.
  - intros I. exists c. split; auto. apply String.eqb_refl.
Qed.

Lemma record_names_get tns :
  forall (m : metadata) k info,
    dict_get
      (fold_left
         (fun m tn =>
            let '((cat, col, tp), n) := tn in
            dict_set m (cat, col) (mk_info n tp)) tns m) k = Some info ->
    dict_get m k = Some info \/
    exists t n, In (t, n) tns /\ k = (cat_of t, col_of t)
                /\ info = mk_info n (snd t).
Proof.
  induction tns as [|[[[cat col] tp] n] tns IH]; intros m k info G.
  - now left.
  - cbn [fold_left] in G. apply IH in G. destruct G as [G|[t [n' [I [K E]]]]].
    + rewrite dict_get_set in G.
      match type of G with
      | (if ?b then _ else _) = _ => destruct b eqn:E
      end.
      * apply keqb_eq in E. subst k. inversion G; subst.
        right. exists (cat, col, tp), n.
        split; [now left|]. split; reflexivity.
      * now left.
    + right. exists t, n'. split; [now right|]. split; assumption.
Qed.

Lemma spec_names_entry triples :
  forall seen t n,
    In (t, n) (combine triples (spec_names seen triples)) ->
    exists i, nth_error triples i = Some t /\
      ((n = col_of t /\ ~ In (col_of t) seen /\
        forall i' t', (i' < i)%nat -> nth_error triples i' = Some t' ->
                      col_of t' <> col_of t)
       \/
       (n = prefixed_name (cat_of t) (col_of t) /\
        (In (col_of t) seen \/
         exists i' t', (i' < i)%nat /\ nth_error triples i' = Some t'
                       /\ col_of t' = col_of t))).
Proof.
  induction triples as [|[[cat col] tp] rest IH]; intros seen t n I.
  - destruct I.
  - cbn [spec_names combine] in I. destruct I as [E|I].
    + inversion E; subst; clear E. exists 0%nat. split; [reflexivity|].
      unfold col_of, cat_of; cbn [fst snd].
      destruct (existsb (String.eqb col) seen) eqn:X.
      * right. split; [reflexivity|]. left. now apply existsb_eqb_In.
      * left. split; [reflexivity|]. split.
        -- intros J. apply existsb_eqb_In in J. congruence.
        -- intros i' t' L. inversion L.
    + apply IH in I. destruct I as [i [N D]]. exists (S i). split; [exact N|].
      destruct D as [[En [NS B]]|[En P]].
      * left. split; [exact En|]. split.
        -- intros J. apply NS. now right.
        -- intros [|i'] t' L N'.
           ++ cbn in N'. inversion N'; subst. unfold col_of at 1; cbn [fst snd].
              intros C. apply NS. left. exact C.
           ++ cbn in N'. apply (B i' t'); auto. lia.
      * right. split; [exact En|].
        destruct P as [[C|J]|[i' [t' [L [N' C]]]]].
        -- right. exists 0%nat, (cat, col, tp). repeat split; auto. lia.
        -- now left.
        -- right. exists (S i'), t'. repeat split; auto. lia.
Qed.

Lemma lower_length (s : string) : String.length (lower s) = String.length s.
Proof. induction s; simpl; auto. Qed.

Lemma take_prefix_length (s : string) :
  (2 <= String.length s)%nat -> String.length (take_prefix 2 s) = 2%nat.
Proof.
  destruct s as [|a [|b s]]; simpl; try lia. intros _.
  destruct s; reflexivity.
Qed.

Lemma append_inj_length (a b c d : string) :
  String.length a = String.length c ->
  (a ++ b)%string = (c ++ d)%string -> a = c /\ b = d.
Proof.
  revert c. induction a as [|x a IH]; intros [|y c] L E; simpl in *;
    try discriminate.
  - auto.
  - inversion E; subst. destruct (IH c) as [-> ->]; auto.
Qed.

Lemma build_meta_entry triples k info :
  dict_get (build_meta triples) k = Some info ->
  exists i t, nth_error triples i = Some t /\ k = (cat_of t, col_of t) /\
    ((unique info = col_of t /\
      forall i' t', (i' < i)%nat -> nth_error triples i' = Some t' ->
                    col_of t' <> col_of t)
     \/
     (unique info = prefixed_name (cat_of t) (col_of t) /\
      exists i' t', (i' < i)%nat /\ nth_error triples i' = Some t'
                    /\ col_of t' = col_of t)).
Proof.
  intros G.
  unfold build_meta in G.
  rewrite (naming_loop_spec triples naming_init []) in G by reflexivity.
  apply record_names_get in G. destruct G as [G|[t [n [I [K E]]]]].
  - discriminate G.
  - apply spec_names_entry in I. destruct I as [i [N D]].
    exists i, t. split; [exact N|]. split; [exact K|]. subst info; cbn [unique].
    destruct D as [[En [_ B]]|[En [[]|P]]]; [left|right]; auto.
Qed.

(** C5 (as stated, counterexample).  Passing/Yds, Receiving/Yds and
    Returns/Yds share the column label under three different categories, yet
    the distinct keys (Receiving, Yds) and (Returns, Yds) both get the
    canonical name reYds. *)
Lemma same_prefix_categories_collide :
  let triples := [("Passing", "Yds", ""); ("Receiving", "Yds", "");
                  ("Returns", "Yds", "")] in
  distinct_categories triples /\
  exists k1 k2 i1 i2,
    k1 <> k2 /\
    dict_get (build_meta triples) k1 = Some i1 /\
    dict_get (build_meta triples) k2 = Some i2 /\
    unique i1 = unique i2.
Proof.
  cbv zeta. split.
  - intros i j ti tj L Ei Ej _.
    destruct i as [|[|[|i]]]; destruct j as [|[|[|j]]]; try lia;
      cbn in Ei, Ej; inversion Ei; inversion Ej; subst; cbn; try discriminate.
    + destruct j; discriminate.
    + destruct j; discriminate.
    + destruct j; discriminate.
    + destruct i; discriminate.
  - exists ("Receiving", "Yds"), ("Returns", "Yds"),
           (mk_info "reYds" ""), (mk_info "reYds" "").
    repeat split. discriminate.
Qed.

(** C5 (amended).  For every sequence of header triples in which any two
    triples sharing the same column label have categories whose lowercase
    two-character prefixes differ, the later of them has a category of at
    least two characters, and no column label of the sequence equals the
    prefixed name formed for it, no two distinct (category, column) keys are
    assigned the same canonical name. *)
Theorem seeding_names_unique (triples : list (string * string * string)) :
  distinct_prefixes triples ->
  forall k1 k2 i1 i2,
    dict_get (build_meta triples) k1 = Some i1 ->
    dict_get (build_meta triples) k2 = Some i2 ->
    k1 <> k2 -> unique i1 <> unique i2.
Proof.
  intros Hyp k1 k2 i1 i2 G1 G2 NK EU.
  apply build_meta_entry in G1. apply build_meta_entry in G2.
  destruct G1 as [a [ta [Na [Ka Da]]]]. destruct G2 as [b [tb [Nb [Kb Db]]]].
  assert (NE : a <> b).
  { intros ->. rewrite Na in Nb. inversion Nb; subst. contradiction. }
  destruct Da as [[Ua Ba]|[Ua [a' [ta' [La [Na' Ca]]]]]];
    destruct Db as [[Ub Bb]|[Ub [b' [tb' [Lb [Nb' Cb]]]]]].
  - (* both bare *)
    rewrite Ua, Ub in EU.
    destruct (Nat.lt_total a b) as [L|[L|L]]; [|contradiction|].
    + exact (Bb a ta L Na EU).
    + exact (Ba b tb L Nb (eq_sym EU)).
  - (* first bare, second prefixed *)
    rewrite Ua, Ub in EU.
    destruct (Hyp b' b tb' tb Lb Nb' Nb Cb) as [_ [_ H3]].
    apply (H3 ta); [eapply nth_error_In; eauto | exact EU].
  - rewrite Ua, Ub in EU.
    destruct (Hyp a' a ta' ta La Na' Na Ca) as [_ [_ H3]].
    apply (H3 tb); [eapply nth_error_In; eauto | symmetry; exact EU].
  - (* both prefixed *)
    rewrite Ua, Ub in EU. unfold prefixed_name in EU.
    destruct (Hyp a' a ta' ta La Na' Na Ca) as [_ [La2 _]].
    destruct (Hyp b' b tb' tb Lb Nb' Nb Cb) as [_ [Lb2 _]].
    apply append_inj_length in EU.
    2:{ rewrite !lower_length, !take_prefix_length; auto. }
    destruct EU as [EP EC].
    destruct (Nat.lt_total a b) as [L|[L|L]]; [|contradiction|].
    + destruct (Hyp a b ta tb L Na Nb EC) as [H1 _]. apply H1. exact EP.
    + destruct (Hyp b a tb ta L Nb Na (eq_sym EC)) as [H1 _].
      apply H1. symmetry. exact EP.
Qed.

Lemma seeding_names_unique_witness :
  let triples := [("Passing", "Yds", ""); ("Passing", "TD", "");
                  ("Rushing", "Yds", "")] in
  distinct_prefixes triples /\
  forall k1 k2 i1 i2,
    dict_get (build_meta triples) k1 = Some i1 ->
    dict_get (build_meta triples) k2 = Some i2 ->
    k1 <> k2 -> unique i1 <> unique i2.
Proof.
  cbv zeta.
  assert (D : distinct_prefixes [("Passing", "Yds", ""); ("Passing", "TD", "");
                                 ("Rushing", "Yds", "")]).
  { intros i j ti tj L Ei Ej C.
    destruct i as [|[|[|i]]]; destruct j as [|[|[|j]]]; try lia;
      cbn in Ei, Ej; inversion Ei; inversion Ej; subst; cbn in C;
      try discriminate; try (destruct j; discriminate);
      try (destruct i; discriminate).
    split; [cbn; discriminate|]. split; [cbn; lia|].
    intros tk [<-|[<-|[<-|[]]]]; cbn; discriminate. }
  split; [exact D|]. exact (seeding_names_unique _ D).
Defined.

(** C9 (the code at the failing input).  Seeding the sample site finds a
    quarterback and a running back.  The registry returned is the merge of
    both positions (seven entries, in particular the passing ones), but the
    schema log written at the end holds the five lines of the last position
    only: the passing entries of the registry have no line. *)
Theorem seeding_log_holds_last_position_only :
  let '(r, w) :=
    get_table_metadata_for_positions START_YEAR default_positions
      METADATA_FILE Sample.start in
  exists merged log,
    r = Ok merged /\
    dict_get (text_files w) METADATA_FILE = Some log /\
    List.length merged = 7%nat /\
    List.length log = 5%nat /\
    dict_get merged ("Passing", "Yds") = Some (mk_info "Yds" "") /\
    ~ In (metadata_line "Passing" "Yds" "Yds" "") log /\
    log = metadata_lines
            (build_meta [("", "Rk", ""); ("", "Week", ""); ("", "Date", "");
                         ("Rushing", "Att", ""); ("Rushing", "Yds", "")]).
Proof.
  vm_compute. eexists. eexists.
  split; [reflexivity|]. split; [reflexivity|].
  split; [reflexivity|]. split; [reflexivity|].
  split; [reflexivity|]. split; [|reflexivity].
  intros I. repeat (destruct I as [I|I]; [discriminate I|]). exact I.
Qed.

(** ** RecordNormalizer *)

Import Normalizer.

Lemma lstrip_keep (p : ascii -> bool) (s : string) (c : ascii) :
  first_char s = Some c -> p c = false -> lstrip p s = s.
Proof. destruct s; simpl; intros [= ->] ->; reflexivity. Qed.

Lemma rstrip_keep (p : ascii -> bool) (s : string) (c : ascii) :
  last_char s = Some c -> p c = false -> rstrip p s = s.
Proof.
  induction s as [|a s IH]; [discriminate|].
  destruct s as [|b s].
  - simpl. intros [= ->] ->. reflexivity.
  - intros L P. change (last_char (String a (String b s))) with
      (last_char (String b s)) in L.
    specialize (IH L P).
    change (rstrip p (String a (String b s))) with
      (match rstrip p (String b s) with
       | EmptyString => if p a then EmptyString else String a EmptyString
       | r => String a r
       end).
    rewrite IH. reflexivity.
Qed.

Lemma last_char_append (a b : string) :
  b <> EmptyString -> last_char (a ++ b) = last_char b.
Proof.
  intros NB. induction a as [|x a IH]; [reflexivity|].
  simpl. destruct (a ++ b)%string eqn:E.
  - destruct a; [simpl in E; contradiction|discriminate].
  - exact IH.
Qed.

Lemma fallback_name_plain (cat col : string) (a b : ascii) :
  first_char cat = Some a -> a <> "_"%char ->
  last_char col = Some b -> b <> "_"%char ->
  fallback_name cat col = (cat ++ "_" ++ col)%string.
Proof.
  intros FA NA LB NB. unfold fallback_name, strip_underscore, strip_chars.
  assert (PA : Ascii.eqb "_" a = false).
  { apply Ascii.eqb_neq. congruence. }
  assert (PB : Ascii.eqb "_" b = false).
  { apply Ascii.eqb_neq. congruence. }
  rewrite (lstrip_keep _ _ a); auto.
  - apply (rstrip_keep _ _ b); auto.
    rewrite last_char_append.
    + change ("_" ++ col)%string with (String "_" col).
      destruct col; [discriminate|exact LB].
    + discriminate.
  - destruct cat; [discriminate|exact FA].
Qed.

Lemma fallback_name_empty_category (col : string) :
  fallback_name "" col = strip_underscore col.
Proof. reflexivity. Qed.

Lemma schema_log_append (w : world) (chunk : string) :
  schema_log (snd (append_file METADATA_FILE chunk w)) = schema_log w ++ [chunk].
Proof.
  unfold append_file, schema_log; cbn [snd text_files].
  now rewrite dict_get_set_same.
Qed.

Lemma map_headers_spec (mm : metadata) cps :
  forall w,
    fst (map_headers mm cps w) = Ok (map (resolved_name mm) cps) /\
    schema_log (snd (map_headers mm cps w))
    = schema_log w ++ appended_lines mm cps /\
    web (snd (map_headers mm cps w)) = web w /\
    seen_players (snd (map_headers mm cps w)) = seen_players w /\
    json_dumps (snd (map_headers mm cps w)) = json_dumps w.
Proof.
  induction cps as [|[[cat col] tp] cps IH]; intros w.
  - cbn. rewrite app_nil_r. auto.
  - cbn [map_headers map appended_lines flat_map resolved_name].
    fold (appended_lines mm cps).
    destruct (dict_get mm (cat, col)) as [info|] eqn:G.
    + unfold bind, ret. cbv beta iota.
      destruct (IH w) as [R [L [W [S J]]]].
      destruct (map_headers mm cps w) as [[hs|e] w1]; cbn [fst snd] in *;
        [|discriminate R].
      inversion R; subst hs. cbn [app]. auto.
    + unfold bind, ret.
      pose proof (schema_log_append w
                    (metadata_line cat col (fallback_name cat col) tp)) as LA.
      destruct (append_file METADATA_FILE
                  (metadata_line cat col (fallback_name cat col) tp) w)
        as [[[]|e] w0] eqn:AF; [|unfold append_file in AF; discriminate AF].
      cbn [snd] in LA.
      assert (W0 : web w0 = web w /\ seen_players w0 = seen_players w
                   /\ json_dumps w0 = json_dumps w).
      { unfold append_file in AF. inversion AF; subst w0. cbn. auto. }
      cbv beta iota.
      destruct (IH w0) as [R [L [W [S J]]]].
      destruct (map_headers mm cps w0) as [[hs|e] w1]; cbn [fst snd] in *;
        [|discriminate R].
      inversion R; subst hs.
      destruct W0 as [W0 [S0 J0]].
      rewrite L, LA, <- app_assoc. cbn [app].
      repeat split; congruence.
Qed.

Lemma appended_lines_length (mm : metadata) cps :
  List.length (appended_lines mm cps)
  = List.length
      (filter (fun p => negb (dict_mem mm (Schema.cat_of p, Schema.col_of p)))
              cps).
Proof.
  induction cps as [|[[cat col] tp] cps IH]; [reflexivity|].
  cbn [appended_lines flat_map filter]. fold (appended_lines mm cps).
  unfold dict_mem, Schema.cat_of, Schema.col_of; cbn [fst snd].
  destruct (dict_get mm (cat, col)); cbn [negb app List.length]; now rewrite IH.
Qed.

(** C2 (as stated, counterexample).  The player's 2011 and 2012 logs both
    carry the header (Snaps, Pct), which the registry does not know.
    Scraping the player with that registry appends the same line to the
    schema log once for each of the two documents: the second document does
    not find the header in the registry, and the line is not there exactly
    once. *)
Lemma unknown_header_logged_for_each_document :
  let '(pid, name, url, registry) := Sample.qb_unit in
  let w := snd (Orchestrator.scrape_player pid name url registry Sample.start) in
  let line := metadata_line "Snaps" "Pct" "Snaps_Pct" "Snap share" in
  dict_get registry ("Snaps", "Pct") = None /\
  schema_log w = [line; line] /\
  count_occ string_dec (schema_log w) line <> 1%nat.
Proof.
  vm_compute. split; [reflexivity|]. split; [reflexivity|]. discriminate.
Qed.

(** C2 (amended).  When normalization meets a (category, column) header pair
    absent from the registry it uses the fallback name: category, "_" and
    column joined, with leading and trailing underscores removed (so
    category + "_" + column when the category does not begin and the column
    does not end with an underscore, and the column so stripped when the
    category is empty); it appends one line to the schema log for every
    occurrence of such a pair; the registry itself is not extended, so
    normalizing the same headers again with the same registry resolves them
    to the same names and appends the same lines again. *)
Theorem unknown_header_fallback_and_log (mm : metadata)
    (cps : list (string * string * string)) (w : world) :
  let r1 := map_headers mm cps w in
  let r2 := map_headers mm cps (snd r1) in
  fst r1 = Ok (map (resolved_name mm) cps) /\
  (forall cat col tp,
     dict_get mm (cat, col) = None ->
     resolved_name mm (cat, col, tp) = strip_underscore (cat ++ "_" ++ col)%string) /\
  (forall col, fallback_name "" col = strip_underscore col) /\
  (forall cat col a b,
     first_char cat = Some a -> a <> "_"%char ->
     last_char col = Some b -> b <> "_"%char ->
     fallback_name cat col = (cat ++ "_" ++ col)%string) /\
  schema_log (snd r1) = schema_log w ++ appended_lines mm cps /\
  List.length (appended_lines mm cps)
  = List.length
      (filter (fun p => negb (dict_mem mm (Schema.cat_of p, Schema.col_of p)))
              cps) /\
  fst r2 = fst r1 /\
  schema_log (snd r2)
  = schema_log w ++ appended_lines mm cps ++ appended_lines mm cps.
Proof.
  cbv zeta.
  destruct (map_headers_spec mm cps w) as [R1 [L1 _]].
  destruct (map_headers_spec mm cps (snd (map_headers mm cps w))) as [R2 [L2 _]].
  split; [exact R1|]. split.
  { intros cat col tp G. unfold resolved_name. rewrite G. reflexivity. }
  split; [exact fallback_name_empty_category|].
  split; [exact fallback_name_plain|].
  split; [exact L1|]. split; [apply appended_lines_length|].
  split; [congruence|]. rewrite L2, L1, app_assoc. reflexivity.
Qed.

Lemma scrape_gamelog_inv url mm w yd w' :
  scrape_gamelog url mm w = (Ok (Some yd), w') ->
  exists sp table cps rows,
    web w url = Some sp /\ stats_of sp = Some table /\
    table_col_pairs table = Ok cps /\ tbody table = Some rows /\
    rows_games (map (resolved_name mm) cps) mm rows = Ok (games yd) /\
    schema_log w' = schema_log w ++ appended_lines mm cps.
Proof.
  unfold scrape_gamelog, bind, fetch_soup, lift, ret, raise.
  destruct (web w url) as [sp|] eqn:W; [|discriminate].
  destruct (stats_of sp) as [table|] eqn:T; [|discriminate].
  destruct (table_col_pairs table) as [cps|e] eqn:C; [|discriminate].
  destruct (map_headers_spec mm cps w) as [R [L _]].
  destruct (map_headers mm cps w) as [[hs|e] w1]; cbn [fst snd] in *;
    [|discriminate].
  inversion R; subst hs.
  destruct (tbody table) as [rows|] eqn:B; [|discriminate].
  destruct (rows_games (map (resolved_name mm) cps) mm rows) as [gs|e] eqn:G;
    [|discriminate].
  intros E. inversion E; subst. exists sp, table, cps, rows.
  cbn [games]. auto 10.
Qed.

Lemma rows_games_In headers mm rows :
  forall gs g,
    rows_games headers mm rows = Ok gs -> In g gs ->
    exists row, In row rows /\ row_game headers mm row = Ok (Some g).
Proof.
  induction rows as [|row rows IH]; intros gs g E I.
  - inversion E; subst. destruct I.
  - cbn [rows_games] in E.
    destruct (row_game headers mm row) as [og|e] eqn:R; [|discriminate].
    destruct (rows_games headers mm rows) as [gs'|e]; [|discriminate].
    inversion E; subst; clear E.
    destruct og as [g0|].
    + destruct I as [->|I].
      * exists row. split; [now left|exact R].
      * destruct (IH gs' g eq_refl I) as [r [Ir Er]]. exists r. split; auto.
        now right.
    + destruct (IH gs' g eq_refl I) as [r [Ir Er]]. exists r. split; auto.
      now right.
Qed.

Lemma row_game_inv headers mm row g :
  row_game headers mm row = Ok (Some g) ->
  exists first rest,
    row_cells row = first :: rest /\ isdigit first = true /\
    make_game (row_stats headers mm rest) = Ok (Some g).
Proof.
  unfold row_game.
  destruct (Schema.is_thead_row (row_class row)); [discriminate|].
  destruct (row_cells row) as [|first rest]; [discriminate|].
  destruct (isdigit first) eqn:D; cbn [negb]; [|discriminate].
  intros E. exists first, rest. auto.
Qed.

Lemma make_game_inv gd g :
  make_game gd = Ok (Some g) ->
  stats g = gd /\
  exists week_val,
    dict_get gd "Week" = Some week_val /\ truthy week_val = true /\
    str_isdigit week_val = true /\ int_of week_val = Ok (week g).
Proof.
  unfold make_game.
  destruct (dict_get gd "Week") as [wv|]; [|discriminate].
  destruct (truthy wv) eqn:T; cbn [negb orb]; [|discriminate].
  destruct (str_isdigit wv) eqn:D; cbn [negb]; [|discriminate].
  destruct (int_of wv) as [wk|e] eqn:I; [|discriminate].
  intros E. inversion E; subst; clear E. cbn [stats week].
  split; [reflexivity|]. exists wv. auto.
Qed.

Lemma assign_cells_other hs : forall cells gd k,
  ~ In k (firstn (List.length cells) hs) ->
  dict_get (assign_cells hs cells gd) k = dict_get gd k.
Proof.
  induction hs as [|h hs IH]; intros [|val cells] gd k NI; try reflexivity.
  cbn [assign_cells]. cbn [List.length firstn] in NI.
  rewrite IH.
  - apply dict_get_set_other. intros ->. apply NI. now left.
  - intros I. apply NI. now right.
Qed.

Lemma assign_cells_get hs : forall cells gd k v,
  dict_get (assign_cells hs cells gd) k = Some v ->
  dict_get gd k = Some v \/
  (In k (firstn (List.length cells) hs) /\ exists val, v = coerce val).
Proof.
  induction hs as [|h hs IH]; intros [|val cells] gd k v G; try (now left).
  cbn [assign_cells] in G. apply IH in G. cbn [List.length firstn].
  destruct G as [G|[I E]].
  - rewrite dict_get_set in G.
    match type of G with (if ?b then _ else _) = _ => destruct b eqn:K end.
    + apply keqb_eq in K. subst k. inversion G; subst.
      right. split; [now left|]. now exists val.
    + now left.
  - right. split; [now right|exact E].
Qed.

Lemma fill_missing_get (vs : list meta_info) : forall gd k,
  dict_get
    (fold_left
       (fun gd info =>
          if dict_mem gd (unique info) then gd
          else dict_set gd (unique info) (PInt 0)) vs gd) k
  = match dict_get gd k with
    | Some v => Some v
    | None => if existsb (String.eqb k) (map unique vs)
              then Some (PInt 0) else None
    end.
Proof.
  induction vs as [|info vs IH]; intros gd k; cbn [fold_left map existsb].
  - destruct (dict_get gd k); reflexivity.
  - rewrite IH. unfold dict_mem.
    destruct (dict_get gd (unique info)) eqn:U.
    + destruct (dict_get gd k) eqn:K; [reflexivity|].
      destruct (String.eqb k (unique info)) eqn:E; [|reflexivity].
      apply String.eqb_eq in E. subst k. congruence.
    + rewrite dict_get_set, keqb_string.
      rewrite (String.eqb_sym k (unique info)).
      destruct (String.eqb (unique info) k) eqn:E.
      * apply String.eqb_eq in E. subst k. rewrite U. reflexivity.
      * reflexivity.
Qed.

Lemma row_stats_get headers mm cells k :
  dict_get (row_stats headers mm cells) k
  = match dict_get (assign_cells headers cells []) k with
    | Some v => Some v
    | None => if existsb (String.eqb k) (map unique (dict_values mm))
              then Some (PInt 0) else None
    end.
Proof. unfold row_stats, fill_missing. apply fill_missing_get. Qed.

Lemma resolved_name_cases mm cps k :
  In k (map (resolved_name mm) cps) ->
  In k (map unique (dict_values mm)) \/
  exists cat col tp, In (cat, col, tp) cps /\ dict_get mm (cat, col) = None
                     /\ k = fallback_name cat col.
Proof.
  rewrite in_map_iff. intros [[[cat col] tp] [E I]].
  unfold resolved_name in E. destruct (dict_get mm (cat, col)) eqn:G.
  - left. subst k. apply dict_get_In in G.
    apply in_map_iff. exists m. split; auto.
    apply in_map_iff. exists ((cat, col), m). auto.
  - right. exists cat, col, tp. auto.
Qed.

Lemma firstn_In {A} (n : nat) (l : list A) x : In x (firstn n l) -> In x l.
Proof.
  revert l. induction n as [|n IH]; intros [|a l] I; cbn in *;
    try contradiction.
  destruct I as [->|I]; [now left|right; auto].
Qed.

(** C6.  Every game produced by [scrape_gamelog] against a registry comes
    from a body row of the document, and its stats contain every canonical
    name of the registry; a registry name that no cell of the row was stored
    under has the value 0; and every key of the stats is a canonical name of
    the registry or the fallback name of a header pair of the document that
    the registry does not know. *)
Theorem game_stats_schema_complete url (mm : metadata) w yd w' g :
  scrape_gamelog url mm w = (Ok (Some yd), w') ->
  In g (games yd) ->
  exists sp table cps rows row first rest,
    web w url = Some sp /\ stats_of sp = Some table /\
    table_col_pairs table = Ok cps /\
    tbody table = Some rows /\ In row rows /\ row_cells row = first :: rest /\
    let headers := map (resolved_name mm) cps in
    let assigned := firstn (List.length rest) headers in
    stats g = row_stats headers mm rest /\
    (forall key info, In (key, info) mm ->
       exists v, dict_get (stats g) (unique info) = Some v) /\
    (forall key info, In (key, info) mm -> ~ In (unique info) assigned ->
       dict_get (stats g) (unique info) = Some (PInt 0)) /\
    (forall name v, dict_get (stats g) name = Some v ->
       In name (map unique (dict_values mm)) \/
       exists cat col tp, In (cat, col, tp) cps /\
         dict_get mm (cat, col) = None /\ name = fallback_name cat col).
Proof.
  intros E I.
  destruct (scrape_gamelog_inv _ _ _ _ _ E) as [sp [table [cps [rows H]]]].
  destruct H as [W [T [C [B [G _]]]]].
  destruct (rows_games_In _ _ _ _ _ G I) as [row [Ir R]].
  destruct (row_game_inv _ _ _ _ R) as [first [rest [Cs [_ M]]]].
  destruct (make_game_inv _ _ M) as [S _].
  exists sp, table, cps, rows, row, first, rest.
  repeat (split; [assumption|]). rewrite S.
  assert (U : forall key info, In (key, info) mm ->
              existsb (String.eqb (unique info)) (map unique (dict_values mm))
              = true).
  { intros key info Im. apply existsb_eqb_In. apply in_map_iff.
    exists info. split; auto. apply in_map_iff. exists (key, info). auto. }
  split; [|split].
  - intros key info Im. rewrite row_stats_get, (U key info Im).
    destruct (dict_get (assign_cells _ rest []) (unique info)); eauto.
  - intros key info Im NA. rewrite row_stats_get, (U key info Im).
    rewrite assign_cells_other by exact NA. reflexivity.
  - intros name v Gv. rewrite row_stats_get in Gv.
    destruct (dict_get (assign_cells (map (resolved_name mm) cps) rest []) name)
      as [v0|] eqn:A.
    + apply assign_cells_get in A. destruct A as [A|[A _]]; [discriminate A|].
      apply firstn_In in A. now apply resolved_name_cases.
    + destruct (existsb (String.eqb name) (map unique (dict_values mm))) eqn:X;
        [|discriminate Gv].
      left. now apply existsb_eqb_In.
Qed.

Lemma game_stats_schema_complete_witness :
  let url := (BASE_URL ++ "/players/B/BradTo00/gamelog/2011/")%string in
  exists yd w' g,
    scrape_gamelog url Sample.registry Sample.start = (Ok (Some yd), w') /\
    In g (games yd) /\
    (forall key info, In (key, info) Sample.registry ->
       exists v, dict_get (stats g) (unique info) = Some v) /\
    dict_get (stats g) "Att" = Some (PInt 0) /\
    dict_get (stats g) "Snaps_Pct" = Some (PStr "98%").
Proof.
  cbv zeta.
  set (r := scrape_gamelog _ Sample.registry Sample.start).
  assert (E : exists yd w', r = (Ok (Some yd), w') /\ exists g, In g (games yd)
                /\ dict_get (stats g) "Att" = Some (PInt 0)
                /\ dict_get (stats g) "Snaps_Pct" = Some (PStr "98%")).
  { vm_compute. eexists. eexists. split; [reflexivity|].
    eexists. split; [left; reflexivity|]. split; reflexivity. }
  destruct E as [yd [w' [E [g [I [A P]]]]]].
  exists yd, w', g. split; [exact E|]. split; [exact I|].
  destruct (game_stats_schema_complete _ _ _ _ _ _ E I)
    as [sp [table [cps [rows [row [first [rest H]]]]]]].
  destruct H as [_ [_ [_ [_ [_ [_ [_ [C _]]]]]]]].
  split; [exact C|]. split; [exact A|exact P].
Defined.
















(** ** IngestionOrchestrator *)

Import Orchestrator.

Lemma scrape_gamelog_frame url (mm : metadata) w :
  fst (scrape_gamelog url mm w) = gamelog_outcome (web w) url mm /\
  web (snd (scrape_gamelog url mm w)) = web w /\
  seen_players (snd (scrape_gamelog url mm w)) = seen_players w /\
  json_dumps (snd (scrape_gamelog url mm w)) = json_dumps w.
Proof.
  unfold gamelog_outcome, scrape_gamelog, bind, fetch_soup, lift, ret, raise.
  cbn [web].
  destruct (web w url) as [sp|]; [|cbn; auto].
  destruct (stats_of sp) as [table|]; [|cbn; auto].
  destruct (table_col_pairs table) as [cps|e]; [|cbn; auto].
  destruct (map_headers_spec mm cps w) as [R [_ [W [S J]]]].
  destruct (map_headers_spec mm cps (mk_world (web w) [] [] [])) as [R0 _].
  destruct (map_headers mm cps w) as [[hs|e] w1]; cbn [fst snd] in *;
    [|discriminate R].
  destruct (map_headers mm cps (mk_world (web w) [] [] [])) as [[hs0|e] w0];
    cbn [fst snd] in *; [|discriminate R0].
  assert (hs0 = hs) by congruence. subst hs0.
  destruct (tbody table) as [rows|]; [|cbn; auto].
  destruct (rows_games hs mm rows); cbn; auto.
Qed.

Lemma scrape_years_frame (mm : metadata) items : forall data w,
  web (snd (scrape_years mm items data w)) = web w /\
  seen_players (snd (scrape_years mm items data w)) = seen_players w /\
  json_dumps (snd (scrape_years mm items data w)) = json_dumps w.
Proof.
  induction items as [|[y u] items IH]; intros data w.
  - cbn. auto.
  - cbn [scrape_years]. unfold bind.
    destruct (scrape_gamelog_frame u mm w) as [_ [W [S J]]].
    destruct (scrape_gamelog u mm w) as [[o|e] w1]; cbn [fst snd] in *; auto.
    destruct (IH (match o with
                  | Some yd => mk_player (p_name data) (p_id data)
                                 (dict_set (years data) (str_of_int y) yd)
                  | None => data
                  end) w1) as [W1 [S1 J1]].
    repeat split; congruence.
Qed.

(** When no year raises, the loop returns the record with the years whose
    page has a stats table. *)
Lemma scrape_years_all_ok (mm : metadata) items : forall data w,
  (forall y u, In (y, u) items ->
     exists o, gamelog_outcome (web w) u mm = Ok o) ->
  exists w1,
    scrape_years mm items data w
    = (Ok (mk_player (p_name data) (p_id data)
                     (kept_years (web w) mm items (years data))), w1).
Proof.
  induction items as [|[y u] items IH]; intros data w A.
  - cbn. exists w. destruct data; reflexivity.
  - cbn [scrape_years kept_years fold_left]. unfold bind.
    destruct (scrape_gamelog_frame u mm w) as [R [W _]].
    destruct (A y u (or_introl eq_refl)) as [o O].
    destruct (scrape_gamelog u mm w) as [[o'|e] w1]; cbn [fst snd] in *;
      [|congruence].
    rewrite O in R. inversion R; subst o'. rewrite O.
    destruct (IH (match o with
                  | Some yd => mk_player (p_name data) (p_id data)
                                 (dict_set (years data) (str_of_int y) yd)
                  | None => data
                  end) w1) as [w2 E].
    { intros y' u' I. rewrite W. apply (A y' u'). now right. }
    exists w2. rewrite E. rewrite W. unfold kept_years.
    destruct o; reflexivity.
Qed.

(** When some year raises, the loop raises. *)
Lemma scrape_years_raises (mm : metadata) items : forall data w,
  (exists y u e, In (y, u) items /\ gamelog_outcome (web w) u mm = Raise e) ->
  exists e w1, scrape_years mm items data w = (Raise e, w1).
Proof.
  induction items as [|[y u] items IH]; intros data w [y' [u' [e [I O]]]].
  - destruct I.
  - cbn [scrape_years]. unfold bind.
    destruct (scrape_gamelog_frame u mm w) as [R [W _]].
    destruct (scrape_gamelog u mm w) as [[o|e0] w1]; cbn [fst snd] in *.
    + destruct I as [E|I].
      * inversion E; subst. congruence.
      * apply IH. exists y', u', e. split; [exact I|]. now rewrite W.
    + eauto.
Qed.

Lemma scrape_player_unfold pid name url (mm : metadata) w sp links yl :
  existsb (String.eqb pid) (seen_players w) = false ->
  web w url = Some sp -> nav_of sp = GameLogList links ->
  collect_year_links links [] = Ok yl ->
  scrape_player pid name url mm w
  = match scrape_years mm (sorted_items yl) (mk_player name pid [])
            (mk_world (web w) (seen_players w ++ [pid])
                      (text_files w) (json_dumps w)) with
    | (Ok d, w1) => (Ok (Some d), w1)
    | (Raise e, w1) => (Raise e, w1)
    end.
Proof.
  intros NS W N C.
  unfold scrape_player, bind, is_seen, mark_seen, fetch_soup, lift, ret.
  rewrite NS. cbn [web seen_players text_files json_dumps].
  rewrite W, N, C, NS.
  destruct (scrape_years mm (sorted_items yl) _ _) as [[d|e] w1]; reflexivity.
Qed.

Lemma kept_years_keys site (mm : metadata) items : forall ys k,
  In k (dict_keys (kept_years site mm items ys)) <->
  In k (dict_keys ys) \/
  exists y u yd, In (y, u) items /\ k = str_of_int y /\
                 gamelog_outcome site u mm = Ok (Some yd).
Proof.
  induction items as [|[y u] items IH]; intros ys k.
  - cbn. split; [auto|]. intros [I|[y [u [yd [[] _]]]]]. exact I.
  - unfold kept_years in *. cbn [fold_left]. rewrite IH. clear IH.
    destruct (gamelog_outcome site u mm) as [[yd|]|e] eqn:O.
    + rewrite dict_keys_set_In. split.
      * intros [[->|I]|[y' [u' [yd' [I [K G]]]]]].
        -- right. exists y, u, yd. split; [now left|auto].
        -- now left.
        -- right. exists y', u', yd'. split; [now right|auto].
      * intros [I|[y' [u' [yd' [[E|I] [K G]]]]]].
        -- left. now right.
        -- inversion E; subst. left. now left.
        -- right. exists y', u', yd'. auto.
    + split.
      * intros [I|[y' [u' [yd' [I [K G]]]]]]; [now left|].
        right. exists y', u', yd'. split; [now right|auto].
      * intros [I|[y' [u' [yd' [[E|I] [K G]]]]]]; [now left| |].
        -- inversion E; subst. congruence.
        -- right. exists y', u', yd'. auto.
    + split.
      * intros [I|[y' [u' [yd' [I [K G]]]]]]; [now left|].
        right. exists y', u', yd'. split; [now right|auto].
      * intros [I|[y' [u' [yd' [[E|I] [K G]]]]]]; [now left| |].
        -- inversion E; subst. congruence.
        -- right. exists y', u', yd'. auto.
Qed.

Lemma pool_run_length sch units : forall seens w,
  List.length (fst (fst (pool_run sch units seens w))) = List.length units.
Proof.
  revert sch. induction units as [|u units IH]; intros sch seens w.
  - reflexivity.
  - cbn [pool_run].
    destruct (scrape_wrapper u _) as [r w1].
    specialize (IH (tl sch)
                  (replace_nth (hd 0 sch mod List.length seens)%nat
                               (seen_players w1) seens)
                  (with_seen w1 (seen_players w))).
    destruct (pool_run (tl sch) units _ _) as [[rs seens2] w2].
    cbn [fst List.length] in *. now rewrite IH.
Qed.

(** C3 (as stated, counterexample).  The running back's 2010 log is scraped
    without error, the page of his 2011 log cannot be fetched: the unit ends
    with nothing persisted, not with a record holding the year 2010. *)
Lemma partial_player_record_is_lost :
  let '(pid, name, url, registry) := Sample.rb_unit in
  let r := scrape_wrapper Sample.rb_unit Sample.start in
  (exists yd,
     gamelog_outcome (web Sample.start)
       (BASE_URL ++ "/players/P/PeteAd01/gamelog/2010/")%string registry
     = Ok (Some yd)) /\
  gamelog_outcome (web Sample.start)
    (BASE_URL ++ "/players/P/PeteAd01/gamelog/2011/")%string registry
  = Raise HTTPError /\
  fst r = Ok None /\ json_dumps (snd r) = [].
Proof.
  vm_compute. split; [eexists; reflexivity|]. repeat split.
Qed.

(** C3 (amended).  [scrape_wrapper] never raises: whatever a unit raises is
    turned into [None], and the pool gives a result for every unit, the ones
    after a failed unit included.  For a player not seen before whose page
    lists game logs: when no year raises, the record is persisted with
    exactly the years whose page has a stats table (a year without that
    table is skipped); when a year raises (its page cannot be fetched, say),
    the unit returns [None] and nothing is persisted for the player, the
    years scraped before it being dropped as well. *)
Theorem unit_failures_are_contained :
  (forall u w, exists r, fst (scrape_wrapper u w) = Ok r) /\
  (forall sch units seens w,
     List.length (fst (fst (pool_run sch units seens w))) = List.length units) /\
  (forall pid name url (mm : metadata) w sp links yl,
     existsb (String.eqb pid) (seen_players w) = false ->
     web w url = Some sp -> nav_of sp = GameLogList links ->
     collect_year_links links [] = Ok yl ->
     let items := sorted_items yl in
     ((forall y u, In (y, u) items ->
         exists o, gamelog_outcome (web w) u mm = Ok o) ->
      let d := mk_player name pid (kept_years (web w) mm items []) in
      exists w1,
        scrape_wrapper (pid, name, url, mm) w = (Ok (Some d), w1) /\
        json_dumps w1 = json_dumps w ++ [(data_path pid, d)] /\
        forall k, In k (dict_keys (years d)) <->
                  exists y u yd, In (y, u) items /\ k = str_of_int y /\
                                 gamelog_outcome (web w) u mm = Ok (Some yd))
     /\
     ((exists y u e, In (y, u) items /\
                     gamelog_outcome (web w) u mm = Raise e) ->
      exists w1,
        scrape_wrapper (pid, name, url, mm) w = (Ok None, w1) /\
        json_dumps w1 = json_dumps w)) /\
  (let '(rs, _, w1) :=
     pool_run [0; 0]%nat [Sample.rb_unit; Sample.qb_unit] [[]] Sample.start in
   exists d, rs = [None; Some d] /\
             json_dumps w1 = [("data/BradTo00.json", d)] /\
             dict_keys (years d) = ["2010"; "2011"; "2012"]).
Proof.
  split; [|split; [|split]].
  - intros [[[pid name] url] mm] w. unfold scrape_wrapper.
    destruct (bind _ _ w) as [[r|e] w1]; cbn [fst]; eauto.
  - intros. apply pool_run_length.
  - intros pid name url mm w sp links yl NS W N C items.
    pose proof (scrape_player_unfold pid name url mm w sp links yl NS W N C)
      as U.
    set (w0 := mk_world (web w) (seen_players w ++ [pid]) (text_files w)
                        (json_dumps w)) in U.
    fold items in U.
    destruct (scrape_years_frame mm items (mk_player name pid []) w0)
      as [_ [_ J]].
    split.
    + intros A d.
      destruct (scrape_years_all_ok mm items (mk_player name pid []) w0 A)
        as [w1 E].
      rewrite E in U, J. cbn [snd p_name p_id years web] in *.
      exists (mk_world (web w1) (seen_players w1) (text_files w1)
                       (json_dumps w1 ++ [(data_path pid, d)])).
      split; [|split].
      * unfold scrape_wrapper, bind. rewrite U. reflexivity.
      * cbn [json_dumps]. now rewrite J.
      * intros k. subst d. cbn [years]. rewrite kept_years_keys. cbn [dict_keys map].
        split; [intros [[]|H]; exact H|auto].
    + intros R.
      destruct (scrape_years_raises mm items (mk_player name pid []) w0 R)
        as [e [w1 E]].
      rewrite E in U, J. cbn [snd] in J.
      exists w1. split; [|exact J].
      unfold scrape_wrapper, bind. rewrite U. reflexivity.
  - vm_compute. eexists. repeat split.
Qed.

Lemma unit_failures_are_contained_witness :
  let '(pid, name, url, registry) := Sample.rb_unit in
  existsb (String.eqb pid) (seen_players Sample.start) = false /\
  (exists y u e,
     In (y, u) [(2010%Z, (BASE_URL ++ "/players/P/PeteAd01/gamelog/2010/")%string);
                (2011%Z, (BASE_URL ++ "/players/P/PeteAd01/gamelog/2011/")%string)]
     /\ gamelog_outcome (web Sample.start) u registry = Raise e) /\
  exists w1,
    scrape_wrapper Sample.rb_unit Sample.start = (Ok None, w1) /\
    json_dumps w1 = json_dumps Sample.start.
Proof.
  cbv beta iota delta [Sample.rb_unit].
  assert (R : exists y u e,
     In (y, u) [(2010%Z, (BASE_URL ++ "/players/P/PeteAd01/gamelog/2010/")%string);
                (2011%Z, (BASE_URL ++ "/players/P/PeteAd01/gamelog/2011/")%string)]
     /\ gamelog_outcome (web Sample.start) u Sample.registry = Raise e).
  { exists 2011%Z,
           (BASE_URL ++ "/players/P/PeteAd01/gamelog/2011/")%string, HTTPError.
    split; [right; left; reflexivity|vm_compute; reflexivity]. }
  split; [reflexivity|]. split; [exact R|].
  refine (proj2 (proj1 (proj2 (proj2 unit_failures_are_contained))
                   "PeteAd01" "Adrian Peterson"
                   (BASE_URL ++ "/players/P/PeteAd01.htm")%string
                   Sample.registry Sample.start Sample.rb_page
                   [mk_a "2010" (Some "/players/P/PeteAd01/gamelog/2010/");
                    mk_a "2011" (Some "/players/P/PeteAd01/gamelog/2011/")]
                   [(2010%Z, (BASE_URL ++ "/players/P/PeteAd01/gamelog/2010/")%string);
                    (2011%Z, (BASE_URL ++ "/players/P/PeteAd01/gamelog/2011/")%string)]
                   _ _ _ _) R).
  - reflexivity.
  - reflexivity.
  - reflexivity.
  - vm_compute. reflexivity.
Defined.

Lemma scrape_player_seen pid name url (mm : metadata) w :
  existsb (String.eqb pid) (seen_players w) = true ->
  scrape_player pid name url mm w = (Ok None, w).
Proof.
  intros S. unfold scrape_player, bind, is_seen, ret. now rewrite S.
Qed.


(** In the parallel run [main] stops before any unit is dispatched: the
    first year whose ranking lists a player raises [ValueError]. *)
Remark main_raises_on_first_player :
  fst (main 2 [0; 1]%nat Sample.start) = Raise ValueError.
Proof. vm_compute. reflexivity. Qed.

(** The sequential run has no handler around a unit: the fetch error of one
    player's year ends the whole run. *)
Remark sequential_run_aborts_on_unit_failure :
  fst (sequential_main Sample.start) = Raise HTTPError.
Proof. vm_compute. reflexivity. Qed.


(* ================================================================= *)
(** * Further properties of the code *)

(** ** [calc_fantasy] *)

(** X1.  [calc_fantasy] reads the stats under its ten keys only: two
    mappings that agree on these keys get the same scores, whatever else
    they hold. *)
Theorem calc_fantasy_reads_only_its_keys (s1 s2 : dict string pyval) :
  (forall k, In k scoring_keys -> dict_get s1 k = dict_get s2 k) ->
  calc_fantasy s1 = calc_fantasy s2.
Proof.
  intros A.
  assert (G : forall k, In k scoring_keys -> g s1 k = g s2 k).
  { intros k I. unfold g. now rewrite (A k I). }
  unfold calc_fantasy.
  rewrite !G by (cbn; tauto). reflexivity.
Qed.

Lemma calc_fantasy_reads_only_its_keys_witness :
  let s2 := scenario_stats ++ [("Week", PInt 3); ("Opp", PStr "NYJ")] in
  (forall k, In k scoring_keys -> dict_get scenario_stats k = dict_get s2 k) /\
  calc_fantasy scenario_stats = calc_fantasy s2.
Proof.
  cbv zeta.
  assert (A : forall k, In k scoring_keys ->
                dict_get scenario_stats k
                = dict_get (scenario_stats
                            ++ [("Week", PInt 3); ("Opp", PStr "NYJ")]) k).
  { intros k I. cbn in I.
    repeat (destruct I as [<-|I]; [reflexivity|]). destruct I. }
  split; [exact A|]. exact (calc_fantasy_reads_only_its_keys _ _ A).
Defined.






(** ** Header rows and the seeding of the registry *)

(** X4.  Expanding a header row: when every [colspan] converts with [int()]
    (an absent one counts 1), each cell contributes its text once per column
    it spans, a span of zero or less contributing nothing, so the category
    list is as long as the spans add up to; as soon as one [colspan] does
    not convert, the expansion raises [ValueError]. *)
Theorem expand_spans_spec (cells : list th_cell) :
  if forallb span_ok cells then
    expand_spans cells
    = Ok (flat_map (fun th => repeat (th_text th) (span_width th)) cells) /\
    (forall l, expand_spans cells = Ok l ->
               List.length l = list_sum (map span_width cells))
  else expand_spans cells = Raise ValueError.
Proof.
  induction cells as [|th cells IH]; cbn [forallb expand_spans flat_map map].
  - split; [reflexivity|]. intros l [= <-]. reflexivity.
  - destruct (colspan_of th) as [n|e] eqn:C.
    + assert (W : span_width th = Z.to_nat n)
        by (unfold span_width; now rewrite C).
      assert (K : span_ok th = true) by (unfold span_ok; now rewrite C).
      rewrite K, W. cbn [andb].
      destruct (forallb span_ok cells).
      * destruct IH as [E L]. rewrite E. split; [reflexivity|].
        intros l [= <-]. cbn [list_sum map].
        rewrite length_app, repeat_length, (L _ E). reflexivity.
      * now rewrite IH.
    + assert (K : span_ok th = false) by (unfold span_ok; now rewrite C).
      rewrite K. cbn [andb].
      unfold colspan_of in C. destruct (th_colspan th) as [s|]; [|discriminate].
      destruct (py_int s); [discriminate|]. now inversion C.
Qed.

Lemma record_names_keep tns : forall (m : metadata) k,
  (forall t n, In (t, n) tns -> (cat_of t, col_of t) <> k) ->
  dict_get
    (fold_left
       (fun m tn =>
          let '((cat, col, tp), n) := tn in
          dict_set m (cat, col) (mk_info n tp)) tns m) k
  = dict_get m k.
Proof.
  induction tns as [|[[[cat col] tp] n] tns IH]; intros m k NK.
  - reflexivity.
  - cbn [fold_left]. rewrite IH.
    + apply dict_get_set_other. apply (NK (cat, col, tp) n). now left.
    + intros t n' I. apply (NK t n'). now right.
Qed.

Lemma spec_names_app pre : forall seen rest,
  spec_names seen (pre ++ rest)
  = spec_names seen pre ++ spec_names (rev (map col_of pre) ++ seen) rest.
Proof.
  induction pre as [|[[c l] t] pre IH]; intros seen rest.
  - reflexivity.
  - cbn [app spec_names map rev]. rewrite IH. unfold col_of at 2; cbn [fst snd].
    rewrite <- app_assoc. reflexivity.
Qed.

Lemma combine_append {A B} (l1 : list A) : forall (l1' : list B) l2 l2',
  List.length l1 = List.length l1' ->
  combine (l1 ++ l2) (l1' ++ l2') = combine l1 l1' ++ combine l2 l2'.
Proof.
  induction l1 as [|a l1 IH]; intros [|b l1'] l2 l2' L; try discriminate L.
  - reflexivity.
  - cbn. f_equal. apply IH. now inversion L.
Qed.

Lemma spec_names_length triples : forall seen,
  List.length (spec_names seen triples) = List.length triples.
Proof.
  induction triples as [|[[c l] t] triples IH]; intros seen; cbn; auto.
Qed.

(** X5.  The entry of a header pair in the registry built from one table is
    decided by the last occurrence of the pair: it carries the tooltip of
    that occurrence, and its name is the bare column label when no earlier
    triple has the label, the prefixed label otherwise (so a pair that
    occurs twice ends up under its prefixed name). *)
Theorem build_meta_lookup (pre post : list (string * string * string))
    (cat col tp : string) :
  (forall t, In t post -> (cat_of t, col_of t) <> (cat, col)) ->
  dict_get (build_meta (pre ++ (cat, col, tp) :: post)) (cat, col)
  = Some (mk_info (if existsb (String.eqb col) (map col_of pre)
                   then prefixed_name cat col else col) tp).
Proof.
  intros NP. unfold build_meta.
  rewrite (naming_loop_spec _ naming_init []) by reflexivity.
  unfold record_names. rewrite spec_names_app, app_nil_r.
  rewrite combine_append by (symmetry; apply spec_names_length).
  rewrite fold_left_app. cbn [spec_names combine fold_left].
  rewrite record_names_keep.
  - rewrite dict_get_set_same, existsb_rev. reflexivity.
  - intros t n I. apply in_combine_l in I. now apply NP.
Qed.

Lemma build_meta_lookup_witness :
  (forall t, In t [("Rushing", "Att", "")] ->
             (cat_of t, col_of t) <> ("Passing", "Yds")) /\
  dict_get (build_meta ([("Passing", "Yds", "first")]
                        ++ ("Passing", "Yds", "again")
                        :: [("Rushing", "Att", "")]))
           ("Passing", "Yds")
  = Some (mk_info "paYds" "again").
Proof.
  assert (A : forall t, In t [("Rushing", "Att", "")] ->
                (cat_of t, col_of t) <> ("Passing", "Yds")).
  { intros t [<-|[]]. cbn. discriminate. }
  split; [exact A|].
  exact (build_meta_lookup [("Passing", "Yds", "first")]
           [("Rushing", "Att", "")] "Passing" "Yds" "again" A).
Defined.

Lemma record_names_keys tns : forall (m : metadata),
  NoDup (dict_keys m) ->
  let m' := fold_left
              (fun m tn =>
                 let '((cat, col, tp), n) := tn in
                 dict_set m (cat, col) (mk_info n tp)) tns m in
  NoDup (dict_keys m') /\
  forall k, In k (dict_keys m') <->
            In k (dict_keys m) \/
            exists t n, In (t, n) tns /\ k = (cat_of t, col_of t).
Proof.
  induction tns as [|[[[cat col] tp] n] tns IH]; intros m ND; cbv zeta.
  - split; [exact ND|]. intros k. cbn. split; [auto|].
    intros [I|[t [n [[] _]]]]. exact I.
  - cbn [fold_left].
    destruct (IH (dict_set m (cat, col) (mk_info n tp))
                 (dict_keys_set_NoDup _ _ _ ND)) as [ND' K].
    split; [exact ND'|]. intros k. rewrite K, dict_keys_set_In. split.
    + intros [[->|I]|[t [n' [I E]]]].
      * right. exists (cat, col, tp), n. split; [now left|reflexivity].
      * now left.
      * right. exists t, n'. split; [now right|exact E].
    + intros [I|[t [n' [[E|I] ->]]]].
      * left. now right.
      * inversion E; subst. left. now left.
      * right. exists t, n'. auto.
Qed.

Lemma build_meta_keys_nodup (triples : list (string * string * string)) :
  NoDup (dict_keys (build_meta triples)).
Proof.
  unfold build_meta.
  rewrite (naming_loop_spec _ naming_init []) by reflexivity.
  exact (proj1 (record_names_keys (combine triples (spec_names [] triples)) []
                  (NoDup_nil _))).
Qed.

(** X6.  The registry built from one table has one entry per distinct
    (category, column) pair of its header: its keys are exactly the pairs of
    the triples, none twice, so it never has more entries than there are
    columns. *)
Theorem build_meta_keys (triples : list (string * string * string)) :
  NoDup (dict_keys (build_meta triples)) /\
  (forall k, In k (dict_keys (build_meta triples)) <->
             exists t, In t triples /\ k = (cat_of t, col_of t)) /\
  (List.length (build_meta triples) <= List.length triples)%nat.
Proof.
  unfold build_meta.
  rewrite (naming_loop_spec _ naming_init []) by reflexivity.
  unfold record_names.
  destruct (record_names_keys (combine triples (spec_names [] triples)) []
              (NoDup_nil _)) as [ND K].
  cbv zeta in ND, K. cbn [naming_init meta].
  assert (KS : forall k,
    In k (dict_keys
            (fold_left
               (fun m tn =>
                  let '((cat, col, tp), n) := tn in
                  dict_set m (cat, col) (mk_info n tp))
               (combine triples (spec_names [] triples)) [])) <->
    exists t, In t triples /\ k = (cat_of t, col_of t)).
  { intros k. rewrite K. split.
    - intros [[]|[t [n [I E]]]]. exists t. split; [|exact E].
      now apply in_combine_l in I.
    - intros [t [I E]]. right.
      destruct (In_nth _ _ (("", "", "") : string * string * string) I)
        as [i [L N]].
      exists t, (nth i (spec_names [] triples) "").
      split; [|exact E]. rewrite <- N at 1.
      rewrite <- combine_nth by (symmetry; apply spec_names_length).
      apply nth_In. rewrite length_combine, spec_names_length. lia. }
  split; [exact ND|]. split; [exact KS|].
  (* the keys are distinct members of the list of the triples' pairs *)
  rewrite <- (length_map fst). fold (dict_keys
    (fold_left
       (fun m tn =>
          let '((cat, col, tp), n) := tn in
          dict_set m (cat, col) (mk_info n tp))
       (combine triples (spec_names [] triples)) ([] : metadata))).
  rewrite <- (length_map (fun t => (cat_of t, col_of t)) triples).
  apply NoDup_incl_length; [exact ND|].
  intros k I. apply KS in I. destruct I as [t [I ->]].
  apply in_map_iff. exists t. auto.
Qed.

Lemma dict_update_get {K V} `{KeyEqLaws K} (m : dict K V) : forall d k,
  NoDup (dict_keys m) ->
  dict_get (dict_update d m) k
  = match dict_get m k with Some v => Some v | None => dict_get d k end.
Proof.
  unfold dict_update.
  induction m as [|[k' v'] m IH]; intros d k ND; [reflexivity|].
  inversion ND as [|? ? NI ND']; subst.
  cbn [fold_left fst snd dict_get]. rewrite (IH _ _ ND').
  destruct (keqb k' k) eqn:E.
  - apply keqb_eq in E. subst k'.
    apply dict_get_None in NI. rewrite NI. apply dict_get_set_same.
  - destruct (dict_get m k); [reflexivity|].
    apply dict_get_set_other. now apply keqb_neq.
Qed.

(** X7.  Merging the positions found: when each position's registry has
    distinct keys, the merged registry gives a header pair the entry of the
    last position, in the order found, whose table has the pair; a pair no
    table has is absent. *)
Theorem merge_found_lookup (fnd : dict string metadata) (k : header_key) :
  (forall m, In m (dict_values fnd) -> NoDup (dict_keys m)) ->
  dict_get (merge_found fnd) k
  = fold_left (fun r m => match dict_get m k with
                          | Some v => Some v
                          | None => r
                          end) (dict_values fnd) None.
Proof.
  unfold merge_found. intros ND.
  change (@None meta_info) with (dict_get ([] : metadata) k).
  generalize ([] : metadata) as acc.
  induction (dict_values fnd) as [|m ms IH]; intros acc; cbn [fold_left].
  - reflexivity.
  - rewrite IH by (intros m' I; apply ND; now right).
    rewrite dict_update_get by (apply ND; now left). reflexivity.
Qed.

Lemma merge_found_lookup_witness :
  let qb := build_meta [("Passing", "Yds", "qb"); ("", "Week", "")] in
  let rb := build_meta [("Rushing", "Yds", ""); ("", "Week", "rb")] in
  let fnd := [("QB", qb); ("RB", rb)] in
  (forall m, In m (dict_values fnd) -> NoDup (dict_keys m)) /\
  dict_get (merge_found fnd) ("", "Week") = Some (mk_info "Week" "rb").
Proof.
  cbv zeta.
  assert (A : forall m,
    In m (dict_values
            [("QB", build_meta [("Passing", "Yds", "qb"); ("", "Week", "")]);
             ("RB", build_meta [("Rushing", "Yds", ""); ("", "Week", "rb")])]) ->
    NoDup (dict_keys m)).
  { intros m [<-|[<-|[]]]; apply build_meta_keys_nodup. }
  split; [exact A|].
  rewrite (merge_found_lookup _ _ A). reflexivity.
Defined.

Lemma dict_set_new {K V} `{KeyEqLaws K} (d : dict K V) k v :
  dict_mem d k = false -> dict_set d k v = d ++ [(k, v)].
Proof.
  unfold dict_mem. induction d as [|[k' v'] d IH]; cbn; [reflexivity|].
  destruct (keqb k' k); [discriminate|]. intros N. now rewrite IH.
Qed.

Lemma get_table_metadata_unnamed url w :
  snd (get_table_metadata url None w) = w /\
  forall m, fst (get_table_metadata url None w) = Ok m -> NoDup (dict_keys m).
Proof.
  unfold get_table_metadata, bind, fetch_soup, lift, ret.
  destruct (web w url) as [sp|]; [|split; [reflexivity|discriminate]].
  destruct (stats_of sp) as [table|];
    [|split; [reflexivity|intros m [= <-]; constructor]].
  destruct (thead table) as [[|top [|bottom rows]]|]; cbn [fst snd];
    try (split; [reflexivity|intros m [= <-]; apply build_meta_keys_nodup]).
  destruct (expand_spans top) as [cat_map|e]; cbn [fst snd];
    split; try reflexivity; try discriminate.
  intros m [= <-]. apply build_meta_keys_nodup.
Qed.

Lemma seeding_loop_inv positions rows : forall st w,
  seeding_inv positions st ->
  snd (seeding_loop positions rows st w) = w /\
  forall st', fst (seeding_loop positions rows st w) = Ok st' ->
              seeding_inv positions st'.
Proof.
  induction rows as [|row rows IH]; intros st w Inv.
  - cbn. split; [reflexivity|]. intros st' [= <-]. exact Inv.
  - cbn [seeding_loop].
    destruct (is_thead_row (frow_class row)); [now apply IH|].
    destruct (frow_pos row) as [pos|]; [|now apply IH].
    destruct (frow_player row) as [[[a|] csv]|]; try (now apply IH).
    destruct (existsb (String.eqb pos) positions) eqn:P; cbn [andb];
      [|now apply IH].
    destruct (dict_mem (found st) pos) eqn:F; cbn [negb]; [now apply IH|].
    unfold bind, ret, raise, fetch_soup.
    destruct (a_href a) as [href|]; [|split; [reflexivity|discriminate]].
    destruct (web w (BASE_URL ++ href)%string) as [psoup|];
      [|split; [reflexivity|discriminate]].
    destruct (nav_of psoup) as [| | |links]; try (now apply IH).
    destruct (first_href links) as [h|]; [|now apply IH].
    destruct (get_table_metadata_unnamed (BASE_URL ++ h)%string w) as [W ND].
    destruct (get_table_metadata (BASE_URL ++ h)%string None w) as [[m|e] w1];
      cbn [fst snd] in *; subst w1; [|split; [reflexivity|discriminate]].
    assert (Inv' : seeding_inv positions
                     (mk_seeding (dict_set (found st) pos m) (Some m))).
    { destruct Inv as [N [S _]]. unfold seeding_inv; cbn [found meta_var].
      split; [now apply dict_keys_set_NoDup|]. split.
      - intros p I. apply dict_keys_set_In in I. destruct I as [->|I]; auto.
        now apply existsb_eqb_In.
      - right. exists (found st), pos, m. split; [|reflexivity].
        now apply dict_set_new. }
    destruct (List.length (dict_set (found st) pos m) =? List.length positions)%nat.
    + cbn. split; [reflexivity|]. intros st' [= <-]. exact Inv'.
    + now apply IH.
Qed.

(** X8.  What seeding returns and writes.  When
    [get_table_metadata_for_positions] returns, either the ranking page has
    no fantasy table, the result is empty and nothing was written, or some
    wanted positions were found, each once: the result is the merge of
    their registries, and the only change to the world is the file, which
    now holds the lines of the registry of the position found last. *)
Theorem seeding_outcome year positions filename w merged w' :
  get_table_metadata_for_positions year positions filename w = (Ok merged, w') ->
  (merged = [] /\ w' = w) \/
  exists fnd pos m,
    merged = merge_found (fnd ++ [(pos, m)]) /\
    NoDup (dict_keys (fnd ++ [(pos, m)])) /\
    (forall p, In p (dict_keys (fnd ++ [(pos, m)])) -> In p positions) /\
    w' = mk_world (web w) (seen_players w)
                  (dict_set (text_files w) filename (metadata_lines m))
                  (json_dumps w).
Proof.
  unfold get_table_metadata_for_positions, bind, ret, raise, fetch_soup.
  destruct (web w _) as [sp|]; [|discriminate].
  destruct (fantasy_of sp) as [[rows|]|];
    [| discriminate | intros [= <- <-]; now left].
  assert (I0 : seeding_inv positions (mk_seeding [] None)).
  { unfold seeding_inv; cbn. split; [constructor|]. split; [tauto|]. now left. }
  destruct (seeding_loop_inv positions rows (mk_seeding [] None) w I0) as [W Inv].
  destruct (seeding_loop positions rows (mk_seeding [] None) w) as [[st|e] w1];
    cbn [fst snd] in *; subst w1; [|discriminate].
  destruct (Inv st eq_refl) as [ND [Sub [[F M]|[fnd [pos [m [F M]]]]]]];
    rewrite M; unfold write_file.
  - discriminate.
  - intros [= <- <-]. right. exists fnd, pos, m. rewrite <- F. auto.
Qed.

Lemma seeding_outcome_witness :
  exists merged w',
    get_table_metadata_for_positions START_YEAR default_positions
      METADATA_FILE Sample.start = (Ok merged, w') /\
    List.length merged = 7%nat /\
    exists m, dict_get (text_files w') METADATA_FILE = Some (metadata_lines m).
Proof.
  assert (E : exists merged w',
    get_table_metadata_for_positions START_YEAR default_positions
      METADATA_FILE Sample.start = (Ok merged, w') /\
    List.length merged = 7%nat).
  { vm_compute. eexists. eexists. split; reflexivity. }
  destruct E as [merged [w' [E L]]].
  exists merged, w'. split; [exact E|]. split; [exact L|].
  destruct (seeding_outcome _ _ _ _ _ _ E) as [[M _]|[fnd [pos [m [_ [_ [_ W]]]]]]].
  - subst merged. discriminate L.
  - exists m. subst w'. cbn [text_files]. apply dict_get_set_same.
Defined.




(** ** Normalizing a game log *)

Lemma assign_cells_firstn hs : forall cells gd,
  assign_cells hs cells gd = assign_cells hs (firstn (List.length hs) cells) gd.
Proof.
  induction hs as [|h hs IH]; intros [|val cells] gd; try reflexivity.
  cbn [List.length firstn assign_cells]. apply IH.
Qed.

(** X10.  Body cells beyond the header list are ignored: a row gives the
    same result when the cells after its first one are cut to the number of
    headers. *)
Theorem row_game_ignores_extra_cells headers (mm : metadata) cls first rest :
  row_game headers mm (mk_row cls (first :: rest))
  = row_game headers mm
      (mk_row cls (first :: firstn (List.length headers) rest)).
Proof.
  unfold row_game, row_stats; cbn [row_class row_cells].
  now rewrite <- assign_cells_firstn.
Qed.

Lemma fill_missing_noop (vs : list meta_info) : forall gd : dict string pyval,
  (forall info, In info vs -> dict_mem gd (unique info) = true) ->
  fold_left
    (fun gd info =>
       if dict_mem gd (unique info) then gd
       else dict_set gd (unique info) (PInt 0)) vs gd = gd.
Proof.
  induction vs as [|info vs IH]; intros gd A; [reflexivity|].
  cbn [fold_left]. rewrite (A info (or_introl eq_refl)).
  apply IH. intros i I. apply A. now right.
Qed.

(** X11.  Completion with the default 0 never overwrites a value: whatever
    is stored under a name before keeps its value, a name that is missing
    gets 0 only if it is a canonical name of the registry, and completing a
    second time changes nothing. *)
Theorem fill_missing_keeps_values (mm : metadata) (gd : dict string pyval) :
  (forall k v, dict_get gd k = Some v ->
               dict_get (fill_missing mm gd) k = Some v) /\
  (forall k, dict_get gd k = None ->
     dict_get (fill_missing mm gd) k
     = if existsb (String.eqb k) (map unique (dict_values mm))
       then Some (PInt 0) else None) /\
  fill_missing mm (fill_missing mm gd) = fill_missing mm gd.
Proof.
  unfold fill_missing. split; [|split].
  - intros k v G. now rewrite fill_missing_get, G.
  - intros k G. now rewrite fill_missing_get, G.
  - apply fill_missing_noop. intros info I. unfold dict_mem.
    rewrite fill_missing_get.
    destruct (dict_get gd (unique info)); [reflexivity|].
    assert (X : existsb (String.eqb (unique info))
                        (map unique (dict_values mm)) = true).
    { apply existsb_eqb_In. now apply in_map. }
    now rewrite X.
Qed.




Lemma lstrip_first (p : ascii -> bool) (s : string) c :
  first_char (lstrip p s) = Some c -> p c = false.
Proof.
  induction s as [|a s IH]; cbn [lstrip]; [discriminate|].
  destruct (p a) eqn:P; [exact IH|]. cbn. now intros [= <-].
Qed.

Lemma rstrip_last (p : ascii -> bool) (s : string) c :
  last_char (rstrip p s) = Some c -> p c = false.
Proof.
  induction s as [|a s IH]; cbn [rstrip]; [discriminate|].
  destruct (rstrip p s) as [|b r] eqn:R.
  - destruct (p a) eqn:P; [discriminate|]. cbn. now intros [= <-].
  - intros L. apply IH. exact L.
Qed.

Lemma rstrip_first (p : ascii -> bool) (s : string) c :
  first_char (rstrip p s) = Some c -> first_char s = Some c.
Proof.
  destruct s as [|a s]; cbn [rstrip]; [discriminate|].
  destruct (rstrip p s); [destruct (p a); [discriminate|]|]; auto.
Qed.

(** X13.  A fallback name never begins or ends with an underscore. *)
Theorem fallback_name_has_no_outer_underscore (cat col : string) :
  first_char (fallback_name cat col) <> Some "_"%char /\
  last_char (fallback_name cat col) <> Some "_"%char.
Proof.
  unfold fallback_name, strip_underscore, strip_chars. split; intros E.
  - apply rstrip_first in E. apply lstrip_first in E. discriminate E.
  - apply rstrip_last in E. discriminate E.
Qed.

Lemma map_headers_other_files (mm : metadata) cps : forall w path,
  path <> METADATA_FILE ->
  dict_get (text_files (snd (map_headers mm cps w))) path
  = dict_get (text_files w) path.
Proof.
  induction cps as [|[[cat col] tp] cps IH]; intros w path N; [reflexivity|].
  cbn [map_headers].
  destruct (dict_get mm (cat, col)) as [info|].
  - unfold bind, ret. cbv beta iota.
    specialize (IH w path N).
    destruct (map_headers mm cps w) as [[hs|e] w1]; exact IH.
  - unfold bind, ret, append_file. cbv beta iota.
    match goal with
    | |- context [map_headers mm cps ?w0] =>
        specialize (IH w0 path N);
        destruct (map_headers mm cps w0) as [[hs|e] w1]
    end; cbn [snd text_files] in *; rewrite IH;
      apply dict_get_set_other; congruence.
Qed.

Lemma appended_lines_In (mm : metadata) cps l :
  In l (appended_lines mm cps) ->
  exists cat col tp,
    In (cat, col, tp) cps /\ dict_get mm (cat, col) = None /\
    l = metadata_line cat col (fallback_name cat col) tp.
Proof.
  unfold appended_lines. rewrite in_flat_map.
  intros [[[cat col] tp] [I L]].
  destruct (dict_get mm (cat, col)) eqn:G; [destruct L|].
  destruct L as [<-|[]]. exists cat, col, tp. auto.
Qed.

(** X14.  Whatever a call of [scrape_gamelog] returns or raises, the only
    file it touches is the schema log, and it only appends to it: the lines
    added are lines of header pairs that the registry does not know, under
    their fallback names.  They stay in the log when the call then fails. *)
Theorem scrape_gamelog_only_appends_to_schema_log url (mm : metadata) w :
  (forall path, path <> METADATA_FILE ->
     dict_get (text_files (snd (scrape_gamelog url mm w))) path
     = dict_get (text_files w) path) /\
  exists added,
    schema_log (snd (scrape_gamelog url mm w)) = schema_log w ++ added /\
    forall l, In l added ->
      exists cat col tp,
        dict_get mm (cat, col) = None /\
        l = metadata_line cat col (fallback_name cat col) tp.
Proof.
  assert (Same : (forall path, path <> METADATA_FILE ->
                    dict_get (text_files w) path = dict_get (text_files w) path) /\
                 exists added,
                   schema_log w = schema_log w ++ added /\
                   forall l, In l added ->
                     exists cat col tp,
                       dict_get mm (cat, col) = None /\
                       l = metadata_line cat col (fallback_name cat col) tp).
  { split; [reflexivity|]. exists []. rewrite app_nil_r.
    split; [reflexivity|]. intros l []. }
  unfold scrape_gamelog, bind, fetch_soup, lift, ret, raise.
  destruct (web w url) as [sp|]; [|exact Same].
  destruct (stats_of sp) as [table|]; [|exact Same].
  destruct (table_col_pairs table) as [cps|e]; [|exact Same].
  destruct (map_headers_spec mm cps w) as [R [L _]].
  pose proof (map_headers_other_files mm cps w) as F.
  destruct (map_headers mm cps w) as [[hs|e] w1]; cbn [fst snd] in *;
    [|discriminate R].
  assert (G : (forall path, path <> METADATA_FILE ->
                 dict_get (text_files w1) path = dict_get (text_files w) path) /\
              exists added,
                schema_log w1 = schema_log w ++ added /\
                forall l, In l added ->
                  exists cat col tp,
                    dict_get mm (cat, col) = None /\
                    l = metadata_line cat col (fallback_name cat col) tp).
  { split; [exact F|]. exists (appended_lines mm cps). split; [exact L|].
    intros l I. destruct (appended_lines_In mm cps l I) as [c [k [t [_ [N E]]]]].
    exists c, k, t. auto. }
  destruct (tbody table) as [rows|]; [|exact G].
  destruct (rows_games hs mm rows); exact G.
Qed.

(** ** One player *)

Lemma dict_set_In_inv {K V} `{KeyEqLaws K} (d : dict K V) k v k' v' :
  In (k', v') (dict_set d k v) -> (k', v') = (k, v) \/ In (k', v') d.
Proof.
  induction d as [|[k0 v0] d IH]; cbn.
  - intros [E|[]]. left. now symmetry.
  - destruct (keqb k0 k) eqn:Q; cbn; intros [E|I].
    + apply keqb_eq in Q. subst k0. left. now symmetry.
    + right. now right.
    + right. now left.
    + destruct (IH I) as [E|I']; [now left|right; now right].
Qed.

Lemma collect_year_links_In links : forall acc yl,
  collect_year_links links acc = Ok yl ->
  (NoDup (dict_keys acc) -> NoDup (dict_keys yl)) /\
  forall y u, In (y, u) yl ->
    In (y, u) acc \/
    ((START_YEAR <= y <= END_YEAR)%Z /\
     exists link href,
       In link links /\ a_href link = Some href /\
       contains "/gamelog/" href = true /\
       py_int (a_text link) = Some y /\ u = (BASE_URL ++ href)%string).
Proof.
  induction links as [|link links IH]; intros acc yl C;
    cbn [collect_year_links] in C.
  - inversion C; subst. split; auto.
  - assert (Skip : collect_year_links links acc = Ok yl ->
      (NoDup (dict_keys acc) -> NoDup (dict_keys yl)) /\
      forall y u, In (y, u) yl ->
        In (y, u) acc \/
        ((START_YEAR <= y <= END_YEAR)%Z /\
         exists l href,
           In l (link :: links) /\ a_href l = Some href /\
           contains "/gamelog/" href = true /\
           py_int (a_text l) = Some y /\ u = (BASE_URL ++ href)%string)).
    { intros C'. destruct (IH _ _ C') as [ND P]. split; [exact ND|].
      intros y u I. destruct (P y u I) as [A|[R [l [h [Il Rest]]]]];
        [now left|right]. split; [exact R|]. exists l, h.
      split; [now right|exact Rest]. }
    destruct (a_href link) as [href|] eqn:Hh; [|now apply Skip].
    destruct (contains "/gamelog/" href) eqn:G; cbn [negb] in C;
      [|now apply Skip].
    destruct (isdigit (a_text link)) eqn:D; cbn [negb] in C;
      [|now apply Skip].
    destruct (py_int (a_text link)) as [y0|] eqn:P; [|discriminate C].
    destruct ((y0 <? START_YEAR)%Z || (END_YEAR <? y0)%Z) eqn:B;
      [now apply Skip|].
    apply orb_false_iff in B. destruct B as [B1 B2].
    apply Z.ltb_ge in B1. apply Z.ltb_ge in B2.
    destruct (IH _ _ C) as [ND Q]. split.
    + intros N. apply ND. now apply dict_keys_set_NoDup.
    + intros y u I. destruct (Q y u I) as [A|[R [l [h [Il Rest]]]]].
      * apply dict_set_In_inv in A. destruct A as [E|A]; [|now left].
        inversion E; subst. right. split; [lia|].
        exists link, href. split; [now left|auto].
      * right. split; [exact R|]. exists l, h. split; [now right|exact Rest].
Qed.

(** X15.  The year links kept for a player: every year is within
    [START_YEAR..END_YEAR] and comes from a link whose address contains
    ["/gamelog/"] and whose text reads as that year; the address stored is
    the site's base address followed by the link's. *)
Theorem year_links_within_range links yl :
  collect_year_links links [] = Ok yl ->
  NoDup (dict_keys yl) /\
  forall y u, dict_get yl y = Some u ->
    (START_YEAR <= y <= END_YEAR)%Z /\
    exists link href,
      In link links /\ a_href link = Some href /\
      contains "/gamelog/" href = true /\
      py_int (a_text link) = Some y /\ u = (BASE_URL ++ href)%string.
Proof.
  intros C. destruct (collect_year_links_In links [] yl C) as [ND P].
  split; [apply ND; constructor|].
  intros y u G. apply dict_get_In in G.
  destruct (P y u G) as [[]|R]. exact R.
Qed.

Lemma year_links_within_range_witness :
  exists yl,
    collect_year_links
      [mk_a "Career" (Some "/players/B/BradTo00/gamelog/");
       mk_a "1999" (Some "/players/B/BradTo00/gamelog/1999/");
       mk_a "2010" (Some "/players/B/BradTo00/gamelog/2010/");
       mk_a "2011" (Some "/players/B/BradTo00/splits/2011/");
       mk_a "2012" None] [] = Ok yl /\
    NoDup (dict_keys yl) /\
    forall y u, dict_get yl y = Some u -> (START_YEAR <= y <= END_YEAR)%Z.
Proof.
  eexists. split; [vm_compute; reflexivity|].
  match goal with
  | |- NoDup (dict_keys ?yl) /\ _ =>
      destruct (year_links_within_range
                  [mk_a "Career" (Some "/players/B/BradTo00/gamelog/");
                   mk_a "1999" (Some "/players/B/BradTo00/gamelog/1999/");
                   mk_a "2010" (Some "/players/B/BradTo00/gamelog/2010/");
                   mk_a "2011" (Some "/players/B/BradTo00/splits/2011/");
                   mk_a "2012" None] yl) as [ND P]
  end.
  - vm_compute. reflexivity.
  - split; [exact ND|]. intros y u G. exact (proj1 (P y u G)).
Defined.

Lemma insert_by_year_perm x l : Permutation (insert_by_year x l) (x :: l).
Proof.
  induction l as [|y l IH]; cbn [insert_by_year]; [reflexivity|].
  destruct (fst x <=? fst y)%Z; [reflexivity|].
  transitivity (y :: x :: l); [now constructor|apply perm_swap].
Qed.

Lemma sorted_items_perm (d : dict Z string) : Permutation (sorted_items d) d.
Proof.
  unfold sorted_items. induction d as [|x d IH]; cbn [fold_right]; [reflexivity|].
  transitivity (x :: fold_right insert_by_year [] d);
    [apply insert_by_year_perm|now constructor].
Qed.

Lemma insert_by_year_sorted x l :
  Sorted (fun a b : Z * string => (fst a <= fst b)%Z) l ->
  Sorted (fun a b : Z * string => (fst a <= fst b)%Z) (insert_by_year x l).
Proof.
  induction l as [|y l IH]; intros S; cbn [insert_by_year].
  - repeat constructor.
  - destruct (fst x <=? fst y)%Z eqn:E.
    + apply Z.leb_le in E. constructor; [exact S|now constructor].
    + apply Z.leb_gt in E. inversion S as [|? ? S' Hd]; subst.
      constructor; [now apply IH|].
      destruct l as [|z l]; cbn [insert_by_year].
      * constructor. lia.
      * destruct (fst x <=? fst z)%Z; constructor; [lia|].
        now inversion Hd.
Qed.

(** X16.  [sorted(year_links.items())]: the years are processed in
    ascending order, each entry of the map exactly once. *)
Theorem sorted_items_ascending (d : dict Z string) :
  Permutation (sorted_items d) d /\
  StronglySorted (fun a b : Z * string => (fst a <= fst b)%Z) (sorted_items d).
Proof.
  split; [apply sorted_items_perm|].
  apply Sorted_StronglySorted.
  - intros a b c A B. lia.
  - unfold sorted_items. induction d as [|x d IH]; cbn [fold_right].
    + constructor.
    + now apply insert_by_year_sorted.
Qed.

Lemma scrape_player_frame pid name url (mm : metadata) w :
  web (snd (scrape_player pid name url mm w)) = web w /\
  json_dumps (snd (scrape_player pid name url mm w)) = json_dumps w /\
  seen_players (snd (scrape_player pid name url mm w))
  = (if existsb (String.eqb pid) (seen_players w)
     then seen_players w else seen_players w ++ [pid]).
Proof.
  unfold scrape_player, bind, is_seen, mark_seen, fetch_soup, lift, ret.
  destruct (existsb (String.eqb pid) (seen_players w)) eqn:S; [auto|].
  cbn [web seen_players text_files json_dumps]. rewrite S.
  destruct (web w url) as [sp|]; [|cbn; auto].
  destruct (nav_of sp) as [| | |links]; try (cbn; auto).
  destruct (collect_year_links links []) as [yl|e]; [|cbn; auto].
  match goal with
  | |- context [scrape_years mm ?items ?d ?w0] =>
      destruct (scrape_years_frame mm items d w0) as [W [F J]];
      destruct (scrape_years mm items d w0) as [[d'|e] w1]
  end; cbn [snd web seen_players json_dumps] in *; auto.
Qed.

Lemma scrape_years_record (mm : metadata) items : forall data w d w1,
  scrape_years mm items data w = (Ok d, w1) ->
  p_id d = p_id data /\ p_name d = p_name data /\
  (NoDup (dict_keys (years data)) -> NoDup (dict_keys (years d))) /\
  forall k, In k (dict_keys (years d)) ->
    In k (dict_keys (years data)) \/
    exists y u, In (y, u) items /\ k = str_of_int y.
Proof.
  induction items as [|[y u] items IH]; intros data w d w1 E.
  - cbn in E. inversion E; subst. auto.
  - cbn [scrape_years] in E. unfold bind in E.
    destruct (scrape_gamelog u mm w) as [[[yd|]|e] w0]; [| |discriminate E].
    + destruct (IH _ _ _ _ E) as [I [N [ND K]]]. cbn [p_id p_name years] in *.
      split; [exact I|]. split; [exact N|]. split.
      * intros D. apply ND. now apply dict_keys_set_NoDup.
      * intros k Ik. destruct (K k Ik) as [A|[y' [u' [Iy Ek]]]].
        -- apply dict_keys_set_In in A. destruct A as [->|A]; [|now left].
           right. exists y, u. split; [now left|reflexivity].
        -- right. exists y', u'. split; [now right|exact Ek].
    + destruct (IH _ _ _ _ E) as [I [N [ND K]]].
      split; [exact I|]. split; [exact N|]. split; [exact ND|].
      intros k Ik. destruct (K k Ik) as [A|[y' [u' [Iy Ek]]]]; [now left|].
      right. exists y', u'. split; [now right|exact Ek].
Qed.

Lemma scrape_player_some pid name url (mm : metadata) w d w' :
  scrape_player pid name url mm w = (Ok (Some d), w') ->
  p_id d = pid /\ p_name d = name /\
  existsb (String.eqb pid) (seen_players w) = false.
Proof.
  unfold scrape_player, bind, is_seen, mark_seen, fetch_soup, lift, ret.
  destruct (existsb (String.eqb pid) (seen_players w)) eqn:S; [discriminate|].
  cbn [web seen_players text_files json_dumps].
  destruct (web w url) as [sp|]; [|discriminate].
  destruct (nav_of sp) as [| | |links];
    try (intros [= <- _]; cbn; auto).
  destruct (collect_year_links links []) as [yl|e]; [|discriminate].
  match goal with
  | |- context [scrape_years mm ?items ?d0 ?w0] =>
      pose proof (scrape_years_record mm items d0 w0) as R;
      destruct (scrape_years mm items d0 w0) as [[d'|e] w1]
  end; [|discriminate].
  intros [= <- _]. destruct (R d' w1 eq_refl) as [I [N _]]. cbn in *. auto.
Qed.

(** X17.  The record that [scrape_player] returns carries the id and the
    name it was called with, for a player not seen before; its years are
    distinct keys, each the decimal text of a year within
    [START_YEAR..END_YEAR]. *)
Theorem scrape_player_record pid name url (mm : metadata) w d w' :
  scrape_player pid name url mm w = (Ok (Some d), w') ->
  p_id d = pid /\ p_name d = name /\
  existsb (String.eqb pid) (seen_players w) = false /\
  NoDup (dict_keys (years d)) /\
  forall k, In k (dict_keys (years d)) ->
    exists y, (START_YEAR <= y <= END_YEAR)%Z /\ k = str_of_int y.
Proof.
  intros E. destruct (scrape_player_some _ _ _ _ _ _ _ E) as [I [N S]].
  split; [exact I|]. split; [exact N|]. split; [exact S|].
  revert E.
  unfold scrape_player, bind, is_seen, mark_seen, fetch_soup, lift, ret.
  rewrite S. cbn [web seen_players text_files json_dumps].
  destruct (web w url) as [sp|]; [|discriminate].
  destruct (nav_of sp) as [| | |links];
    try (intros [= <- _]; cbn; split; [constructor|intros k []]).
  destruct (collect_year_links links []) as [yl|e] eqn:C; [|discriminate].
  match goal with
  | |- context [scrape_years mm ?items ?d0 ?w0] =>
      pose proof (scrape_years_record mm items d0 w0) as R;
      destruct (scrape_years mm items d0 w0) as [[d'|e] w1]
  end; [|discriminate].
  intros [= <- _]. destruct (R d' w1 eq_refl) as [_ [_ [ND K]]].
  cbn [years dict_keys map] in *. split; [apply ND; constructor|].
  intros k Ik. destruct (K k Ik) as [[]|[y [u [Iy ->]]]].
  apply (Permutation_in _ (sorted_items_perm yl)) in Iy.
  destruct (collect_year_links_In links [] yl C) as [_ P].
  destruct (P y u Iy) as [[]|[Rg _]]. exists y. auto.
Qed.

Lemma scrape_player_record_witness :
  exists d w',
    scrape_player "BradTo00" "Tom Brady"
      (BASE_URL ++ "/players/B/BradTo00.htm")%string
      Sample.registry Sample.start = (Ok (Some d), w') /\
    p_id d = "BradTo00" /\
    dict_keys (years d) = ["2010"; "2011"; "2012"] /\
    NoDup (dict_keys (years d)).
Proof.
  assert (E : exists d w',
    scrape_player "BradTo00" "Tom Brady"
      (BASE_URL ++ "/players/B/BradTo00.htm")%string
      Sample.registry Sample.start = (Ok (Some d), w') /\
    dict_keys (years d) = ["2010"; "2011"; "2012"]).
  { vm_compute. eexists. eexists. split; reflexivity. }
  destruct E as [d [w' [E K]]]. exists d, w'. split; [exact E|].
  destruct (scrape_player_record _ _ _ _ _ _ _ E) as [I [_ [_ [ND _]]]].
  auto.
Defined.

(** ** Units of work *)

(** X18.  [scrape_wrapper] never raises, leaves the site alone, and writes
    exactly what it returns: when it returns a record, that record, which
    carries the unit's id and name, is the one dump added, under the path
    of the id; when it returns [None] nothing is dumped. *)
Theorem scrape_wrapper_dumps_what_it_returns pid name url (mm : metadata) w :
  web (snd (scrape_wrapper (pid, name, url, mm) w)) = web w /\
  match fst (scrape_wrapper (pid, name, url, mm) w) with
  | Ok (Some d) =>
      p_id d = pid /\ p_name d = name /\
      json_dumps (snd (scrape_wrapper (pid, name, url, mm) w))
      = json_dumps w ++ [(data_path pid, d)]
  | Ok None =>
      json_dumps (snd (scrape_wrapper (pid, name, url, mm) w)) = json_dumps w
  | Raise _ => False
  end.
Proof.
  unfold scrape_wrapper, bind, ret, dump_json.
  destruct (scrape_player_frame pid name url mm w) as [W [J _]].
  pose proof (scrape_player_some pid name url mm w) as S.
  destruct (scrape_player pid name url mm w) as [[[d|]|e] w1];
    cbn [fst snd web json_dumps] in *; auto.
  destruct (S d w1 eq_refl) as [I [N _]]. rewrite J. auto.
Qed.

(** X19.  A unit whose scrape raises is lost for the process: the wrapper
    returns [None] and dumps nothing, and since the id stays marked as
    seen, any later unit of the same player in the same process, whatever
    its name, address and registry, returns [None] and changes nothing. *)
Theorem failed_unit_is_never_retried pid name url (mm : metadata) w e :
  fst (scrape_player pid name url mm w) = Raise e ->
  fst (scrape_wrapper (pid, name, url, mm) w) = Ok None /\
  json_dumps (snd (scrape_wrapper (pid, name, url, mm) w)) = json_dumps w /\
  forall w2 name' url' (mm' : metadata),
    (forall p, In p (seen_players (snd (scrape_wrapper (pid, name, url, mm) w)))
               -> In p (seen_players w2)) ->
    scrape_wrapper (pid, name', url', mm') w2 = (Ok None, w2).
Proof.
  intros R. unfold scrape_wrapper at 1 2 3, bind, ret, dump_json.
  destruct (scrape_player_frame pid name url mm w) as [_ [J S]].
  pose proof (scrape_player_seen pid name url mm w) as Seen.
  destruct (scrape_player pid name url mm w) as [[o|e0] w1];
    cbn [fst snd] in *; [discriminate R|].
  split; [reflexivity|]. split; [exact J|].
  intros w2 name' url' mm' Sub.
  assert (I : In pid (seen_players w1)).
  { rewrite S. destruct (existsb (String.eqb pid) (seen_players w)) eqn:X.
    - specialize (Seen eq_refl). discriminate Seen.
    - apply in_or_app. right. now left. }
  apply Sub in I. apply existsb_eqb_In in I.
  unfold scrape_wrapper, bind, ret.
  now rewrite (scrape_player_seen pid name' url' mm' w2 I).
Qed.

Lemma failed_unit_is_never_retried_witness :
  fst (scrape_wrapper Sample.rb_unit Sample.start) = Ok None /\
  json_dumps (snd (scrape_wrapper Sample.rb_unit Sample.start)) = [] /\
  scrape_wrapper Sample.rb_unit (snd (scrape_wrapper Sample.rb_unit Sample.start))
  = (Ok None, snd (scrape_wrapper Sample.rb_unit Sample.start)).
Proof.
  destruct (failed_unit_is_never_retried
              "PeteAd01" "Adrian Peterson"
              (BASE_URL ++ "/players/P/PeteAd01.htm")%string
              Sample.registry Sample.start HTTPError) as [R [J N]].
  - vm_compute. reflexivity.
  - split; [exact R|]. split; [exact J|]. apply N. auto.
Defined.

(** ** The sequential run *)

Lemma string_length_append (a b : string) :
  String.length (a ++ b)%string = (String.length a + String.length b)%nat.
Proof. induction a as [|c a IH]; cbn; [reflexivity|now rewrite IH]. Qed.

Lemma data_file_inj (a b : string) :
  ("data/" ++ a ++ ".json")%string = ("data/" ++ b ++ ".json")%string -> a = b.
Proof.
  intros E. cbn in E. injection E as E.
  assert (L : String.length a = String.length b).
  { apply (f_equal String.length) in E. rewrite !string_length_append in E.
    lia. }
  now destruct (append_inj_length _ _ _ _ L E).
Qed.

Lemma sequential_players_dumps (mm : metadata) players : forall w,
  (forall p, In p (seen_players w) ->
             In p (seen_players (snd (sequential_players mm players w)))) /\
  exists new,
    json_dumps (snd (sequential_players mm players w)) = json_dumps w ++ new /\
    NoDup (map fst new) /\
    forall path d, In (path, d) new ->
      path = ("data/" ++ p_id d ++ ".json")%string /\
      ~ In (p_id d) (seen_players w) /\
      In (p_id d) (seen_players (snd (sequential_players mm players w))) /\
      exists url, In (p_id d, p_name d, url) players.
Proof.
  induction players as [|[[pid name] url] rest IH]; intros w.
  - cbn. split; [auto|]. exists []. rewrite app_nil_r.
    split; [reflexivity|]. split; [constructor|]. intros path d [].
  - cbn [sequential_players]. unfold bind, is_seen.
    destruct (existsb (String.eqb pid) (seen_players w)) eqn:S.
    + destruct (IH w) as [Mono [new [J [ND P]]]]. split; [exact Mono|].
      exists new. split; [exact J|]. split; [exact ND|].
      intros path d I. destruct (P path d I) as [E [N [Sn [u Iu]]]].
      split; [exact E|]. split; [exact N|]. split; [exact Sn|].
      exists u. now right.
    + destruct (scrape_player_frame pid name url mm w) as [_ [J1 S1]].
      rewrite S in S1.
      pose proof (scrape_player_some pid name url mm w) as Some1.
      destruct (scrape_player pid name url mm w) as [[[d|]|e] w1];
        cbn [fst snd] in *.
      * unfold dump_json.
        destruct (Some1 d w1 eq_refl) as [Id [Nm _]].
        match goal with
        | |- context [sequential_players mm rest ?w2] =>
            destruct (IH w2) as [Mono [new [J [ND P]]]];
            destruct (sequential_players mm rest w2) as [r w3]
        end.
        cbn [fst snd seen_players json_dumps] in *.
        assert (Pw3 : In pid (seen_players w3)).
        { apply Mono. rewrite S1. apply in_or_app. right. now left. }
        split.
        -- intros p Ip. apply Mono. rewrite S1. apply in_or_app. now left.
        -- exists ((("data/" ++ pid ++ ".json")%string, d) :: new). split.
           { rewrite J, J1, <- app_assoc. reflexivity. }
           split.
           { cbn [map fst]. constructor; [|exact ND].
             intros I. apply in_map_iff in I.
             destruct I as [[path d'] [Ep I]]. cbn [fst] in Ep. subst path.
             destruct (P _ d' I) as [E [N _]].
             apply data_file_inj in E. apply N. rewrite S1.
             apply in_or_app. right. left. exact E. }
           intros path d' [E|I].
           { inversion E; subst path d'. rewrite Id.
             split; [reflexivity|]. split.
             - intros I. apply existsb_eqb_In in I. congruence.
             - split; [exact Pw3|]. exists url. left. now rewrite Nm. }
           destruct (P path d' I) as [E [N [Sn [u Iu]]]].
           split; [exact E|]. split.
           { intros X. apply N. rewrite S1. apply in_or_app. now left. }
           split; [exact Sn|]. exists u. now right.
      * unfold ret.
        destruct (IH w1) as [Mono [new [J [ND P]]]].
        destruct (sequential_players mm rest w1) as [r w3].
        cbn [fst snd] in *. split.
        -- intros p Ip. apply Mono. rewrite S1. apply in_or_app. now left.
        -- exists new. split; [now rewrite J, J1|]. split; [exact ND|].
           intros path d' I. destruct (P path d' I) as [E [N [Sn [u Iu]]]].
           split; [exact E|]. split.
           { intros X. apply N. rewrite S1. apply in_or_app. now left. }
           split; [exact Sn|]. exists u. now right.
      * split.
        -- intros p Ip. rewrite S1. apply in_or_app. now left.
        -- exists []. rewrite app_nil_r. split; [exact J1|].
           split; [constructor|]. intros path d' [].
Qed.

Lemma get_players_for_year_world year w :
  snd (get_players_for_year year w) = w.
Proof.
  unfold get_players_for_year, bind, fetch_soup, lift, raise.
  destruct (web w _) as [sp|]; [|reflexivity].
  destruct (fantasy_of sp) as [[rows|]|]; reflexivity.
Qed.

Lemma sequential_years_dumps (mm : metadata) yrs : forall w,
  (forall p, In p (seen_players w) ->
             In p (seen_players (snd (sequential_years mm yrs w)))) /\
  exists new,
    json_dumps (snd (sequential_years mm yrs w)) = json_dumps w ++ new /\
    NoDup (map fst new) /\
    forall path d, In (path, d) new ->
      path = ("data/" ++ p_id d ++ ".json")%string /\
      ~ In (p_id d) (seen_players w) /\
      In (p_id d) (seen_players (snd (sequential_years mm yrs w))).
Proof.
  induction yrs as [|year yrs IH]; intros w.
  - cbn. split; [auto|]. exists []. rewrite app_nil_r.
    split; [reflexivity|]. split; [constructor|]. intros path d [].
  - cbn [sequential_years]. unfold bind.
    pose proof (get_players_for_year_world year w) as G.
    destruct (get_players_for_year year w) as [[players|e] w0];
      cbn [snd] in G; subst w0.
    + destruct (sequential_players_dumps mm players w) as [M1 [new1 [J1 [ND1 P1]]]].
      destruct (sequential_players mm players w) as [[[]|e] w1];
        cbn [fst snd] in *.
      * destruct (IH w1) as [M2 [new2 [J2 [ND2 P2]]]].
        destruct (sequential_years mm yrs w1) as [r w2]. cbn [fst snd] in *.
        split; [auto|]. exists (new1 ++ new2). split.
        { now rewrite J2, J1, app_assoc. }
        split.
        { rewrite map_app. apply NoDup_app; [exact ND1|exact ND2|].
          intros path I1 I2. apply in_map_iff in I1, I2.
          destruct I1 as [[p1 d1] [E1 I1]]. destruct I2 as [[p2 d2] [E2 I2]].
          cbn [fst] in *. subst p1 p2.
          destruct (P1 _ _ I1) as [F1 [_ [S1 _]]].
          destruct (P2 _ _ I2) as [F2 [N2 _]].
          rewrite F1 in F2. apply data_file_inj in F2. apply N2.
          now rewrite <- F2. }
        intros path d I. apply in_app_or in I. destruct I as [I|I].
        -- destruct (P1 _ _ I) as [F [N [S _]]]. auto.
        -- destruct (P2 _ _ I) as [F [N S]].
           split; [exact F|]. split; [|exact S].
           intros X. apply N. now apply M1.
      * split; [exact M1|]. exists new1. split; [exact J1|].
        split; [exact ND1|]. intros path d I.
        destruct (P1 _ _ I) as [F [N [S _]]]. auto.
    + cbn [snd]. split; [auto|]. exists []. rewrite app_nil_r.
      split; [reflexivity|]. split; [constructor|]. intros path d [].
Qed.

Lemma seeding_frame year positions filename w :
  web (snd (get_table_metadata_for_positions year positions filename w))
  = web w /\
  seen_players (snd (get_table_metadata_for_positions year positions filename w))
  = seen_players w /\
  json_dumps (snd (get_table_metadata_for_positions year positions filename w))
  = json_dumps w.
Proof.
  unfold get_table_metadata_for_positions, bind, ret, raise, fetch_soup.
  destruct (web w _) as [sp|]; [|cbn; auto].
  destruct (fantasy_of sp) as [[rows|]|]; try (cbn; auto).
  assert (I0 : seeding_inv positions (mk_seeding [] None)).
  { unfold seeding_inv; cbn. split; [constructor|]. split; [tauto|]. now left. }
  destruct (seeding_loop_inv positions rows (mk_seeding [] None) w I0) as [W _].
  destruct (seeding_loop positions rows (mk_seeding [] None) w) as [[st|e] w1];
    cbn [fst snd] in *; subst w1; [|auto].
  destruct (meta_var st); unfold write_file; cbn; auto.
Qed.

(** X20.  However a sequential run ends, normally or on the first
    exception, the records it has dumped by then were each written once:
    their paths are pairwise distinct, each is [data/<id>.json] for the id
    the record carries, and that id was not seen when the run began. *)
Theorem sequential_run_dumps_each_player_once w :
  exists new,
    json_dumps (snd (sequential_main w)) = json_dumps w ++ new /\
    NoDup (map fst new) /\
    forall path d, In (path, d) new ->
      path = ("data/" ++ p_id d ++ ".json")%string /\
      ~ In (p_id d) (seen_players w).
Proof.
  unfold sequential_main, bind.
  destruct (seeding_frame START_YEAR default_positions METADATA_FILE w)
    as [_ [S J]].
  destruct (get_table_metadata_for_positions START_YEAR default_positions
              METADATA_FILE w) as [[mm|e] w0]; cbn [fst snd] in *.
  - destruct (sequential_years_dumps mm year_range w0) as [_ [new [Jn [ND P]]]].
    exists new. split; [now rewrite Jn, J|]. split; [exact ND|].
    intros path d I. destruct (P path d I) as [F [N _]].
    split; [exact F|]. now rewrite <- S.
  - exists []. rewrite app_nil_r. split; [exact J|].
    split; [constructor|]. intros path d [].
Qed.

(** ** The parallel run *)

Lemma gather_players_world (mm : metadata) yrs : forall acc w,
  snd (gather_players mm yrs acc w) = w /\
  forall l, fst (gather_players mm yrs acc w) = Ok l -> l = acc.
Proof.
  induction yrs as [|year yrs IH]; intros acc w.
  - cbn. split; [reflexivity|]. now intros l [= <-].
  - cbn [gather_players]. unfold bind, raise.
    pose proof (get_players_for_year_world year w) as G.
    destruct (get_players_for_year year w) as [[[|p players]|e] w0];
      cbn [snd] in G; subst w0.
    + apply IH.
    + cbn. split; [reflexivity|discriminate].
    + cbn. split; [reflexivity|discriminate].
Qed.

(** X21.  The parallel entry point never scrapes a player: whatever the
    site, the number of processors and the schedule, a run of [main] dumps
    no record and marks no player as seen.  Its units would be built by
    unpacking four names from the triples of [get_players_for_year], which
    raises as soon as a year lists a player. *)
Theorem main_never_dumps_a_record cpus schedule w :
  json_dumps (snd (main cpus schedule w)) = json_dumps w /\
  seen_players (snd (main cpus schedule w)) = seen_players w /\
  web (snd (main cpus schedule w)) = web w.
Proof.
  unfold main, bind, ret.
  destruct (seeding_frame START_YEAR default_positions METADATA_FILE w)
    as [W [S J]].
  destruct (get_table_metadata_for_positions START_YEAR default_positions
              METADATA_FILE w) as [[mm|e] w0]; cbn [fst snd] in *; [|auto].
  destruct (gather_players_world mm year_range [] w0) as [G L].
  destruct (gather_players mm year_range [] w0) as [[l|e] w1];
    cbn [fst snd] in *; subst w1; [|auto].
  rewrite (L l eq_refl). unfold pool_map. cbn [pool_run]. cbn. auto.
Qed.

(** ** The players of a year *)

(** X22.  When the ranking rows of a year can be read, the players returned
    are exactly those of the rows that are not header rows and whose name
    cell holds a link: the id is the cell's [data-append-csv], the name the
    link's text, the address the site's base address followed by the
    link's. *)
Theorem players_of_rows_entries rows l :
  players_of_rows rows = Ok l ->
  (List.length l <= List.length rows)%nat /\
  forall pid name link,
    In (pid, name, link) l <->
    exists row a href,
      In row rows /\ is_thead_row (frow_class row) = false /\
      frow_player row = Some (mk_name_cell (Some a) (Some pid)) /\
      a_href a = Some href /\ name = a_text a /\
      link = (BASE_URL ++ href)%string.
Proof.
  revert l. induction rows as [|row rows IH]; intros l E;
    cbn [players_of_rows] in E.
  - inversion E; subst. split; [cbn; lia|]. intros pid name link.
    split; [intros []|]. intros [r [a [h [[] _]]]].
  - assert (Skip : forall l0,
      (is_thead_row (frow_class row) = true \/
       frow_player row = None \/
       exists csv, frow_player row = Some (mk_name_cell None csv)) ->
      players_of_rows rows = Ok l0 ->
      (List.length l0 <= List.length (row :: rows))%nat /\
      forall pid name link,
        In (pid, name, link) l0 <->
        exists r a href,
          In r (row :: rows) /\ is_thead_row (frow_class r) = false /\
          frow_player r = Some (mk_name_cell (Some a) (Some pid)) /\
          a_href a = Some href /\ name = a_text a /\
          link = (BASE_URL ++ href)%string).
    { intros l0 Why E0. destruct (IH l0 E0) as [Len P].
      split; [cbn [List.length]; lia|]. intros pid name link.
      rewrite P. split.
      - intros [r [a [h [I Rest]]]]. exists r, a, h. split; [now right|exact Rest].
      - intros [r [a [h [[<-|I] [T [Pl Rest]]]]]].
        + exfalso. destruct Why as [X|[X|[csv X]]]; congruence.
        + exists r, a, h. auto. }
    destruct (is_thead_row (frow_class row)) eqn:T; [apply Skip; auto|].
    destruct (frow_player row) as [[[a|] csv]|] eqn:Pl;
      [|apply Skip; eauto|apply Skip; auto].
    destruct csv as [pid0|]; [|discriminate E].
    destruct (a_href a) as [href0|] eqn:H0; [|discriminate E].
    destruct (players_of_rows rows) as [l'|e]; [|discriminate E].
    inversion E; subst l. destruct (IH l' eq_refl) as [Len P].
    split; [cbn [List.length]; lia|]. intros pid name link. split.
    + intros [X|I].
      * inversion X; subst. exists row, a, href0. split; [now left|auto].
      * apply P in I. destruct I as [r [a' [h [I Rest]]]].
        exists r, a', h. split; [now right|exact Rest].
    + intros [r [a' [h [[<-|I] [T' [Pl' [Hh [-> ->]]]]]]]].
      * rewrite Pl in Pl'. inversion Pl'; subst. left. congruence.
      * right. apply P. exists r, a', h. repeat split; auto.
Qed.

Lemma players_of_rows_entries_witness :
  exists l,
    players_of_rows
      [mk_frow (Some ["thead"]) None None;
       Sample.player_row "QB" "BradTo00" "Tom Brady" "/players/B/BradTo00.htm";
       mk_frow None (Some "RB") None] = Ok l /\
    (List.length l <= 3)%nat.
Proof.
  eexists. split; [vm_compute; reflexivity|].
  match goal with
  | |- (List.length ?l <= _)%nat =>
      destruct (players_of_rows_entries
        [mk_frow (Some ["thead"]) None None;
         Sample.player_row "QB" "BradTo00" "Tom Brady" "/players/B/BradTo00.htm";
         mk_frow None (Some "RB") None] l) as [Len _]
  end.
  - vm_compute. reflexivity.
  - exact Len.
Defined.

(** ** Scores of the games of a log *)

(** X23.  The scores stored with a game are those of [calc_fantasy] on the
    game's own stats.  The columns are stored under the registry's names,
    so when none of the names that the table's headers resolve to is one of
    the ten keys that [calc_fantasy] reads, every game of the log has the
    scores of an empty stats mapping, all three of them zero. *)
Theorem game_scores_need_scoring_columns url (mm : metadata) w yd w' gm
    sp table cps :
  scrape_gamelog url mm w = (Ok (Some yd), w') ->
  In gm (games yd) ->
  web w url = Some sp -> stats_of sp = Some table ->
  table_col_pairs table = Ok cps ->
  (forall p, In p cps -> ~ In (resolved_name mm p) scoring_keys) ->
  match gm with
  | mk_game _ _ _ _ _ st f =>
      f = calc_fantasy st /\ f = calc_fantasy [] /\
      standard f == 0 /\ half_ppr f == 0 /\ ppr f == 0
  end.
Proof.
  intros E I W T C NoKey.
  destruct (scrape_gamelog_inv _ _ _ _ _ E) as [sp' [table' [cps' [rows H]]]].
  destruct H as [W' [T' [C' [_ [G _]]]]].
  assert (sp' = sp) by congruence. subst sp'.
  assert (table' = table) by congruence. subst table'.
  assert (cps' = cps) by congruence. subst cps'.
  destruct (rows_games_In _ _ _ _ _ G I) as [row [_ R]].
  destruct (row_game_inv _ _ _ _ R) as [first [rest [_ [_ M]]]].
  destruct (make_game_inv _ _ M) as [St _].
  destruct gm as [wk dt tm op hm st f]. cbn [stats] in St.
  assert (F : f = calc_fantasy st).
  { revert M. unfold make_game.
    destruct (dict_get _ "Week") as [wv|]; [|discriminate].
    destruct (negb (truthy wv) || negb (str_isdigit wv)); [discriminate|].
    destruct (int_of wv); [|discriminate].
    intros [= _ _ _ _ _ <- <-]. reflexivity. }
  assert (Z0 : forall k, In k scoring_keys -> g st k = g [] k).
  { intros k Ik. rewrite St. unfold g. rewrite row_stats_get.
    rewrite assign_cells_other.
    - cbn [dict_get]. destruct (existsb _ _); reflexivity.
    - intros X. apply firstn_In in X. apply in_map_iff in X.
      destruct X as [p [Ep Ip]]. apply (NoKey p Ip). now rewrite Ep. }
  assert (F0 : f = calc_fantasy []).
  { rewrite F. unfold calc_fantasy. rewrite !Z0 by (cbn; tauto). reflexivity. }
  split; [exact F|]. split; [exact F0|]. rewrite F0.
  vm_compute. repeat split; reflexivity.
Qed.

Lemma game_scores_need_scoring_columns_witness :
  exists yd w',
    scrape_gamelog (BASE_URL ++ "/players/B/BradTo00/gamelog/2010/")%string
      Sample.registry Sample.start = (Ok (Some yd), w') /\
    List.length (games yd) = 2%nat /\
    forall gm, In gm (games yd) ->
      match gm with
      | mk_game _ _ _ _ _ _ f => f = calc_fantasy []
      end.
Proof.
  assert (E : exists yd w',
    scrape_gamelog (BASE_URL ++ "/players/B/BradTo00/gamelog/2010/")%string
      Sample.registry Sample.start = (Ok (Some yd), w') /\
    List.length (games yd) = 2%nat).
  { vm_compute. eexists. eexists. split; reflexivity. }
  destruct E as [yd [w' [E L]]]. exists yd, w'.
  split; [exact E|]. split; [exact L|]. intros gm I.
  pose proof (game_scores_need_scoring_columns
            _ _ _ _ _ gm Sample.qb_log_2010
            (mk_stats
               (Some [[Sample.th_span "" "3"; Sample.th_span "Passing" "2"];
                      [Sample.th_rank; Sample.th "Week"; Sample.th "Date";
                       Sample.th "Yds"; Sample.th "TD"]])
               (Some [mk_row None ["1"; "1"; "2010-09-12"; "258"; "3"];
                      mk_row (Some ["thead"]) ["Rk"; "Week"; "Date"; "Yds"; "TD"];
                      mk_row None ["Rk"; "Week"; "Date"; "Yds"; "TD"];
                      mk_row None ["2"; ""; "2010-09-19"; "248"; "2"];
                      mk_row None ["3"; "3"; "2010-09-26"; "252.5"; "3"]]))
            [("", "Week", ""); ("", "Date", ""); ("Passing", "Yds", "");
             ("Passing", "TD", "")]
            E I) as T.
  destruct gm as [wk dt tm op hm st f]. apply T.
  - vm_compute. reflexivity.
  - reflexivity.
  - vm_compute. reflexivity.
  - intros p Ip.
    repeat (destruct Ip as [<-|Ip];
            [vm_compute; intuition discriminate|]).
    destruct Ip.
Defined.

(** ** A pool of one worker *)

Lemma data_path_cases (pid : string) :
  data_path pid
  = if match pid with
       | String c _ => Ascii.eqb c "/"
       | EmptyString => false
       end
    then (pid ++ ".json")%string
    else ("data/" ++ pid ++ ".json")%string.
Proof.
  destruct pid as [|[[] [] [] [] [] [] [] []] s]; reflexivity.
Qed.

Lemma append_inj_r (a b c : string) :
  (a ++ c)%string = (b ++ c)%string -> a = b.
Proof.
  intros E.
  assert (L : String.length a = String.length b).
  { apply (f_equal String.length) in E. rewrite !string_length_append in E.
    lia. }
  now destruct (append_inj_length _ _ _ _ L E).
Qed.

Lemma data_path_inj (a b : string) : data_path a = data_path b -> a = b.
Proof.
  rewrite !data_path_cases.
  destruct a as [|x a]; destruct b as [|y b].
  - reflexivity.
  - destruct (Ascii.eqb y "/") eqn:Y.
    + apply Ascii.eqb_eq in Y. subst y. cbn. discriminate.
    + apply data_file_inj.
  - destruct (Ascii.eqb x "/") eqn:X.
    + apply Ascii.eqb_eq in X. subst x. cbn. discriminate.
    + apply data_file_inj.
  - destruct (Ascii.eqb x "/") eqn:X; destruct (Ascii.eqb y "/") eqn:Y.
    + apply append_inj_r.
    + apply Ascii.eqb_eq in X. subst x. cbn. discriminate.
    + apply Ascii.eqb_eq in Y. subst y. cbn. discriminate.
    + apply data_file_inj.
Qed.

Lemma scrape_wrapper_outcome pid name url (mm : metadata) w :
  exists r w',
    scrape_wrapper (pid, name, url, mm) w = (Ok r, w') /\
    seen_players w'
    = (if existsb (String.eqb pid) (seen_players w)
       then seen_players w else seen_players w ++ [pid]) /\
    match r with
    | Some d =>
        p_id d = pid /\ p_name d = name /\
        existsb (String.eqb pid) (seen_players w) = false /\
        json_dumps w' = json_dumps w ++ [(data_path pid, d)]
    | None => json_dumps w' = json_dumps w
    end.
Proof.
  unfold scrape_wrapper, bind, ret, dump_json.
  destruct (scrape_player_frame pid name url mm w) as [_ [J S]].
  pose proof (scrape_player_some pid name url mm w) as Sm.
  destruct (scrape_player pid name url mm w) as [[[d|]|e] w1];
    cbn [fst snd] in *.
  - destruct (Sm d w1 eq_refl) as [I [N U]].
    eexists. eexists. split; [reflexivity|].
    cbn [seen_players json_dumps]. rewrite J. auto.
  - eexists. eexists. split; [reflexivity|]. auto.
  - eexists. eexists. split; [reflexivity|]. auto.
Qed.

Lemma pool_run_one units : forall schedule s w,
  exists rs s' w',
    pool_run schedule units [s] w = (rs, [s'], w') /\
    (forall p, In p s -> In p s') /\
    exists new,
      json_dumps w' = json_dumps w ++ new /\
      NoDup (map fst new) /\
      forall path d, In (path, d) new ->
        path = data_path (p_id d) /\ ~ In (p_id d) s /\ In (p_id d) s' /\
        exists url mm, In (p_id d, p_name d, url, mm) units.
Proof.
  induction units as [|[[[pid name] url] mm] rest IH]; intros schedule s w.
  - cbn [pool_run]. exists [], s, w. split; [reflexivity|]. split; [auto|].
    exists []. rewrite app_nil_r. split; [reflexivity|].
    split; [constructor|]. intros path d [].
  - cbn [pool_run List.length]. rewrite Nat.mod_1_r. cbn [nth replace_nth].
    destruct (scrape_wrapper_outcome pid name url mm (with_seen w s))
      as [r [w1 [E [Sn Out]]]].
    rewrite E. cbn [seen_players with_seen] in Sn.
    destruct (IH (tl schedule) (seen_players w1)
                 (with_seen w1 (seen_players w)))
      as [rs [s' [w2 [E2 [Mono [new [J [ND P]]]]]]]].
    rewrite E2. cbn [json_dumps with_seen] in J.
    assert (Sub : forall p, In p s -> In p (seen_players w1)).
    { intros p Ip. rewrite Sn. destruct (existsb _ _); [exact Ip|].
      apply in_or_app. now left. }
    assert (Rest : forall path d, In (path, d) new ->
              path = data_path (p_id d) /\ ~ In (p_id d) s /\ In (p_id d) s' /\
              exists url0 mm0,
                In (p_id d, p_name d, url0, mm0) ((pid, name, url, mm) :: rest)).
    { intros path d I. destruct (P path d I) as [F [N [Sd [u [m Iu]]]]].
      split; [exact F|]. split; [intros X; apply N; now apply Sub|].
      split; [exact Sd|]. exists u, m. now right. }
    eexists. exists s', w2. split; [reflexivity|]. split; [auto|].
    destruct r as [d|]; cbn [json_dumps seen_players with_seen] in Out.
    + destruct Out as [Id [Nm [U Jd]]]. rewrite U in Sn.
      exists ((data_path pid, d) :: new). split.
      { rewrite J, Jd, <- app_assoc. reflexivity. }
      split.
      { cbn [map fst]. constructor; [|exact ND].
        intros I. apply in_map_iff in I.
        destruct I as [[path d'] [Ep I]]. cbn [fst] in Ep. subst path.
        destruct (P _ d' I) as [F [N _]].
        apply data_path_inj in F. apply N. rewrite Sn.
        apply in_or_app. right. left. exact F. }
      intros path d' [X|I]; [|now apply Rest].
      inversion X; subst path d'. rewrite Id.
      split; [reflexivity|]. split.
      { intros X'. apply existsb_eqb_In in X'. cbn [seen_players with_seen] in U.
        congruence. }
      split.
      { apply Mono. rewrite Sn. apply in_or_app. right. now left. }
      exists url, mm. left. now rewrite Nm.
    + exists new. split; [now rewrite J, Out|]. split; [exact ND|exact Rest].
Qed.

(** X24.  With a single worker the pool keeps the deduplication of one
    process: whatever the units and the schedule, each record dumped by
    [pool.map] is written once, under the path of the id it carries, for
    a unit of the list whose id was not seen when the pool started. *)
Theorem single_worker_pool_dumps_each_player_once schedule units w :
  exists new,
    json_dumps (snd (pool_map 1 schedule units w)) = json_dumps w ++ new /\
    NoDup (map fst new) /\
    forall path d, In (path, d) new ->
      path = data_path (p_id d) /\ ~ In (p_id d) (seen_players w) /\
      exists url mm, In (p_id d, p_name d, url, mm) units.
Proof.
  unfold pool_map. cbn [repeat].
  destruct (pool_run_one units schedule (seen_players w) w)
    as [rs [s' [w' [E [_ [new [J [ND P]]]]]]]].
  rewrite E. cbn [snd]. exists new. split; [exact J|]. split; [exact ND|].
  intros path d I. destruct (P path d I) as [F [N [_ X]]]. auto.
Qed.
